(** * laspy: record schemas and header accessors

    A shallow embedding of [laspy/util.py] (the classes [Spec], [Format] and
    [Point]) and of [laspy/header.py] (the function [leap_year] and the class
    [Header]), followed by the properties of the LAS record layout that are
    established or refuted on it.

    Python objects are modelled by records, Python dictionaries by finite
    maps, exceptions by an error monad.  Library code that the sources call
    ([struct.Struct], [datetime], [int], [str.split]) is modelled for the
    inputs the sources feed it; each such model says what it leaves out. *)

From Stdlib Require Import ZArith List String Ascii Lia Bool.
From Stdlib Require Import Strings.Byte.
From stdpp Require Import base gmap strings list pretty.

Local Open Scope string_scope.
Local Open Scope list_scope.
Local Open Scope Z_scope.

(** ** Exceptions and results *)

(** The exception classes that the modelled code can raise.  [LaspyException]
    and [LaspyHeaderException] are the two classes of the package, the others
    are built in; [StructError] is [struct.error]. *)
Inductive exn : Type :=
| LaspyException (msg : string)
| LaspyHeaderException (msg : string)
| KeyError
| IndexError
| AttributeError (attr : string)
| ValueError
| TypeError
| OverflowError
| StructError.

Inductive result (A : Type) : Type :=
| Ok (a : A)
| Raise (e : exn).
Arguments Ok {A} a.
Arguments Raise {A} e.

Definition bind {A B : Type} (r : result A) (k : A -> result B) : result B :=
  match r with
  | Ok a => k a
  | Raise e => Raise e
  end.

Declare Scope result_scope.
Delimit Scope result_scope with result.
Notation "'let*' x ':=' r 'in' k" := (bind r (fun x => k))
  (at level 10, x name, r at level 100, k at level 200) : result_scope.
Local Open Scope result_scope.

Definition is_ok {A : Type} (r : result A) : bool :=
  match r with Ok _ => true | Raise _ => false end.

(** ** Python values *)

(** A calendar instant as [datetime.datetime] stores it (naive, no time
    zone). *)
Record datetime : Type := mk_datetime {
  year : Z; month : Z; day : Z;
  hour : Z; minute : Z; second : Z; microsecond : Z
}.

#[local] Set Warnings "-register-all".

(** The values that flow through the modelled code.  [PStr] is the Python 2
    [str] type, a sequence of 8-bit characters, used both for text and for
    byte fields.  A [PFloat] carries the IEEE-754 bit pattern of the number at
    the width of the field that holds it; rounding between the 32-bit and the
    64-bit representation is outside this development.  [PDatetime] is a
    naive [datetime.datetime], [PAware] one with a time zone (its offset is
    immaterial here) and [PDate] a [datetime.date]. *)
Inductive pyval : Type :=
| PNone
| PInt (n : Z)
| PFloat (bits : Z)
| PStr (s : string)
| PList (l : list pyval)
| PDatetime (dt : datetime)
| PAware (dt : datetime)
| PDate (y m d : Z).

(** [d[k]] on a dictionary: [KeyError] on a missing key. *)
Definition dict_get {K V : Type} `{Countable K} (d : gmap K V) (k : K) : result V :=
  match d !! k with
  | Some v => Ok v
  | None => Raise KeyError
  end.

(** [s * n] on a string: [n] copies, none when [n <= 0]. *)
Definition str_mul (s : string) (n : Z) : string :=
  fold_right String.append "" (repeat s (Z.to_nat n)).

(** [type(v) == str]. *)
Definition is_str (v : pyval) : bool :=
  match v with PStr _ => true | _ => false end.

(** [v * n] for the values of the [defaults] table.  A float is multiplied
    only by 1 on the path that reaches this function. *)
Definition py_mul (v : pyval) (n : Z) : pyval :=
  match v with
  | PInt a => PInt (a * n)
  | PStr c => PStr (str_mul c n)
  | other => other
  end.

(** [[v] * n] on a one-element list. *)
Definition list_mul (v : pyval) (n : Z) : list pyval := repeat v (Z.to_nat n).

(** ** util.py: the module-level tables *)

(** The [ctypes] classes.  The first seven are the keys of [LEfmt];
    [c_short] and [c_byte] stand for the classes that are not. *)
Inductive ctype : Type :=
| c_long | c_ushort | c_ubyte | c_float | c_char | c_double | c_ulonglong
| c_short | c_byte.

Definition fmtLen : gmap string Z :=
  list_to_map [("<L", 4); ("<H", 2); ("<B", 1); ("<f", 4); ("<s", 1); ("<d", 8); ("<Q", 8)].

Definition LEfmt (c : ctype) : result string :=
  match c with
  | c_long => Ok "<L" | c_ushort => Ok "<H" | c_ubyte => Ok "<B"
  | c_float => Ok "<f" | c_char => Ok "<s" | c_double => Ok "<d"
  | c_ulonglong => Ok "<Q"
  | c_short | c_byte => Raise KeyError
  end.

Definition npFmt : gmap string string :=
  list_to_map [("<L", "i4"); ("<H", "u2"); ("<B", "u1"); ("<f", "f4"); ("<s", "s1");
               ("<d", "f8"); ("<Q", "u8")].

Definition defaults : gmap string pyval :=
  list_to_map [("<L", PInt 0); ("<H", PInt 0); ("<B", PStr "0"); ("<f", PFloat 0);
               ("<s", PStr " "); ("<d", PFloat 0); ("<Q", PInt 0)].

(** ** util.py: class Spec *)

Module Spec.

Record t : Type := mk {
  name : string;
  offs : Z;
  Format : ctype;
  fmt : string;
  length : Z;
  num : Z;
  pack : bool;
  np_fmt : string;
  default : pyval;
  overwritable : bool;
  idx : Z
}.

(** [Spec.__init__].  The count [num] is stored as it is given. *)
Definition init (name : string) (offs : Z) (fmt : ctype) (num : Z)
    (pack ltl_endian overwritable : bool) (idx : Z) : result t :=
  if ltl_endian then
    let* self_fmt := LEfmt fmt in
    let* self_length := dict_get fmtLen self_fmt in
    let* self_np_fmt := dict_get npFmt self_fmt in
    let* dflt := dict_get defaults self_fmt in
    let self_default :=
      if (num =? 1) || is_str dflt then py_mul dflt num
      else PList (list_mul dflt num) in
    Ok {| name := name; offs := offs; Format := fmt; fmt := self_fmt;
          length := self_length; num := num; pack := pack;
          np_fmt := self_np_fmt; default := self_default;
          overwritable := overwritable; idx := idx |}
  else
    Raise (LaspyException "Big endian files are not currently supported.").

End Spec.

(** ** The library class struct.Struct

    The fragment of [struct] that [Format] and [Point] use: a format string
    made of the byte-order mark [<] (standard sizes, no padding) followed by
    format characters, each standing for one value.  Repeat counts never
    occur, because [Format.add] appends exactly one character per field.
    Integer codes accept integers of their range and raise [struct.error]
    on any other value, [s] accepts a string (cut or zero-padded to one
    byte), [f] and [d] accept a float.

    A float is carried as the bit pattern it has at the width of its field.
    For [d] this is the Python float itself, copied bit for bit.  For [f] it
    leaves out what the library does to a double: rounding to four bytes,
    [OverflowError] beyond the single-precision range, and the quieting of a
    signalling NaN when four bytes are widened.  Also left out are the
    conversions between kinds of number: Python 2 converts a float offered
    to an integer code and an integer offered to [f] or [d], where this
    model raises [struct.error].  Statements about packed values are
    therefore made for schemas without [f] fields and for values of the
    kind of their field. *)

Module Struct.

Inductive code : Type := Code_L | Code_H | Code_B | Code_f | Code_s | Code_d | Code_Q.

Definition code_of_ascii (c : ascii) : option code :=
  if Ascii.eqb c "L" then Some Code_L
  else if Ascii.eqb c "H" then Some Code_H
  else if Ascii.eqb c "B" then Some Code_B
  else if Ascii.eqb c "f" then Some Code_f
  else if Ascii.eqb c "s" then Some Code_s
  else if Ascii.eqb c "d" then Some Code_d
  else if Ascii.eqb c "Q" then Some Code_Q
  else None.

(** Number of bytes of one item. *)
Definition width (c : code) : nat :=
  match c with
  | Code_L => 4 | Code_H => 2 | Code_B => 1 | Code_s => 1
  | Code_f => 4 | Code_d => 8 | Code_Q => 8
  end%nat.

Fixpoint parse (fs : string) : option (list code) :=
  match fs with
  | EmptyString => Some []
  | String c rest =>
      match code_of_ascii c, parse rest with
      | Some k, Some ks => Some (k :: ks)
      | _, _ => None
      end
  end.

Definition calcsize (cs : list code) : Z :=
  fold_right (fun c acc => Z.of_nat (width c) + acc) 0 cs.

Record t : Type := mk {
  format : string;
  codes : list code;
  size : Z
}.

(** [Struct(format)]. *)
Definition init (format : string) : result t :=
  match format with
  | String "<" rest =>
      match parse rest with
      | Some cs => Ok {| format := format; codes := cs; size := calcsize cs |}
      | None => Raise StructError
      end
  | _ => Raise StructError
  end.

Definition byte_of_Z (z : Z) : byte :=
  default x00 (Byte.of_N (Z.to_N (z mod 256))).

Definition Z_of_byte (b : byte) : Z := Z.of_N (Byte.to_N b).

(** Little-endian encoding of [n] on [k] bytes, and its inverse. *)
Fixpoint le_bytes (k : nat) (n : Z) : list byte :=
  match k with
  | O => []
  | S k' => byte_of_Z n :: le_bytes k' (n / 256)
  end.

Fixpoint le_value (bs : list byte) : Z :=
  match bs with
  | [] => 0
  | b :: rest => Z_of_byte b + 256 * le_value rest
  end.

Definition in_range (c : code) (n : Z) : bool :=
  (0 <=? n) && (n <? 2 ^ (8 * Z.of_nat (width c))).

(** One item of [pack]. *)
Definition pack1 (c : code) (v : pyval) : result (list byte) :=
  match c, v with
  | (Code_L | Code_H | Code_B | Code_Q), PInt n =>
      if in_range c n then Ok (le_bytes (width c) n) else Raise StructError
  | (Code_f | Code_d), PFloat bits =>
      if in_range c bits then Ok (le_bytes (width c) bits) else Raise StructError
  | Code_s, PStr str =>
      match str with
      | EmptyString => Ok [x00]
      | String a _ => Ok [byte_of_ascii a]
      end
  | _, _ => Raise StructError
  end.

(** One item of [unpack], from exactly [width c] bytes. *)
Definition unpack1 (c : code) (bs : list byte) : pyval :=
  match c with
  | Code_L | Code_H | Code_B | Code_Q => PInt (le_value bs)
  | Code_f | Code_d => PFloat (le_value bs)
  | Code_s =>
      match bs with
      | b :: _ => PStr (String (ascii_of_byte b) EmptyString)
      | [] => PStr EmptyString
      end
  end.

Fixpoint pack_items (cs : list code) (values : list pyval) : result (list byte) :=
  match cs, values with
  | [], [] => Ok []
  | c :: cs', v :: values' =>
      let* bs := pack1 c v in
      let* rest := pack_items cs' values' in
      Ok (bs ++ rest)
  | _, _ => Raise StructError
  end.

Fixpoint unpack_items (cs : list code) (data : list byte) : list pyval :=
  match cs with
  | [] => []
  | c :: cs' =>
      unpack1 c (take (width c) data) :: unpack_items cs' (drop (width c) data)
  end.

(** [Struct.pack], applied to the values one by one. *)
Definition pack (st : t) (values : list pyval) : result (list byte) :=
  pack_items (codes st) values.

(** [Struct.unpack(data)]: the data must have exactly [size] bytes. *)
Definition unpack (st : t) (data : list byte) : result (list pyval) :=
  if Z.of_nat (List.length data) =? size st
  then Ok (unpack_items (codes st) data)
  else Raise StructError.

End Struct.

(** ** util.py: class Format *)

Module Format.

(** The attributes of a [Format] object.  [format_type] and [packer] are
    absent ([None]) until the constructor assigns them.  The XML tree
    [_etree], which only mirrors [specs], is not modelled. *)
Record t : Type := mk {
  fmt : string;
  specs : list Spec.t;
  rec_len : Z;
  pt_fmt_long : string;
  format_type : option string;
  lookup : gmap string Spec.t;
  packer : option Struct.t
}.

Definition set_format_type (ft : string) (self : t) : t :=
  {| fmt := fmt self; specs := specs self; rec_len := rec_len self;
     pt_fmt_long := pt_fmt_long self; format_type := Some ft;
     lookup := lookup self; packer := packer self |}.

(** [code[1]], the format character after the byte-order mark. *)
Definition char1 (code : string) : result ascii :=
  match String.get 1 code with
  | Some c => Ok c
  | None => Raise IndexError
  end.

(** [Format.add]. *)
Definition add (name : string) (fmt : ctype) (num : Z) (pack overwritable : bool)
    (self : t) : result t :=
  let* offs :=
    match last (specs self) with
    | None => Ok 0
    | Some last =>
        let* len := dict_get fmtLen (Spec.fmt last) in
        Ok (Spec.offs last + Spec.num last * len)
    end in
  let* code := LEfmt fmt in
  let* len := dict_get fmtLen code in
  let rec_len' := rec_len self + num * len in
  let* sp := Spec.init name offs fmt num pack true overwritable
               (Z.of_nat (List.length (specs self))) in
  let* c := char1 code in
  Ok {| fmt := Format.fmt self; specs := specs self ++ [sp]; rec_len := rec_len';
        pt_fmt_long := String.append (pt_fmt_long self) (String c EmptyString);
        format_type := format_type self; lookup := lookup self;
        packer := packer self |}.

(** [self.add(name, fmt, num)] with the default arguments [pack = False]
    and [overwritable = True]. *)
Definition add' (name : string) (fmt : ctype) (num : Z) : t -> result t :=
  add name fmt num false true.

(** A block of statements, each of which may raise. *)
Fixpoint block (steps : list (t -> result t)) (self : t) : result t :=
  match steps with
  | [] => Ok self
  | step :: steps' => let* self' := step self in block steps' self'
  end.

(** [x in (a, b, ...)] on strings. *)
Definition str_in (x : string) (xs : list string) : bool :=
  existsb (String.eqb x) xs.

Definition tail_str (x : string) : string :=
  match x with
  | EmptyString => EmptyString
  | String _ rest => rest
  end.

(** The attributes as the first lines of [__init__] set them. *)
Definition init_empty (fmt : string) : t :=
  {| fmt := fmt; specs := []; rec_len := 0; pt_fmt_long := "<";
     format_type := None; lookup := ∅; packer := None |}.

(** [Format.__init__], after [fmt = str(fmt)]. *)
Definition init (fmt : string) (overwritable : bool) : result t :=
  let self := init_empty fmt in
  if negb (str_in fmt ["0"; "1"; "2"; "3"; "4"; "5"; "VLR"; "h1.0"; "h1.1"; "h1.2"; "h1.3"])
  then Raise (LaspyException (String.append "Invalid format: " fmt))
  else
  let* self :=
    if str_in fmt ["0"; "1"; "2"; "3"; "4"; "5"] then
      block [ add' "X" c_long 1; add' "Y" c_long 1; add' "Z" c_long 1;
              add' "intensity" c_ushort 1; add' "flag_byte" c_ubyte 1;
              add' "raw_classification" c_ubyte 1;
              add' "scan_angle_rank" c_ubyte 1; add' "user_data" c_ubyte 1;
              add' "pt_src_id" c_ushort 1 ]
            (set_format_type (String.append "point format = " fmt) self)
    else Ok self in
  let* self :=
    if str_in fmt ["1"; "3"; "4"; "5"] then add' "gps_time" c_double 1 self
    else Ok self in
  let* self :=
    if str_in fmt ["3"; "5"] then
      block [ add' "red" c_ushort 1; add' "green" c_ushort 1; add' "blue" c_ushort 1 ] self
    else if String.eqb fmt "2" then
      block [ add' "red" c_ushort 1; add' "green" c_ushort 1; add' "blue" c_ushort 1 ] self
    else Ok self in
  let* self :=
    if String.eqb fmt "4" then
      block [ add' "wave_packet_descp_idx" c_ubyte 1;
              add' "byte_offset_to_wavefm_data" c_ulonglong 1;
              add' "wavefm_pkt_size" c_long 1;
              add' "return_pt_wavefm_loc" c_float 1;
              add' "x_t" c_float 1; add' "y_t" c_float 1; add' "z_t" c_float 1 ] self
    else if String.eqb fmt "5" then
      block [ add' "wave_packet_descp_idx" c_ubyte 1;
              add' "byte_offset_to_wavefm_data" c_ulonglong 1;
              add' "wavefm_pkt_size" c_long 1;
              add' "return_pt_wavefm_loc" c_float 1;
              add' "x_t" c_float 1; add' "y_t" c_float 1; add' "z_t" c_float 1 ] self
    else Ok self in
  let* self :=
    if String.eqb fmt "VLR" then
      block [ add' "reserved" c_ushort 1; add' "user_id" c_char 16;
              add' "record_id" c_ushort 1; add' "rec_len_after_header" c_ushort 1;
              add "description" c_char 32 true true ]
            (set_format_type "VLR" self)
    else Ok self in
  let* fmt0 :=
    match String.get 0 fmt with Some c => Ok c | None => Raise IndexError end in
  let* self :=
    if Ascii.eqb fmt0 "h" then
      let* self :=
        block [ add "file_sig" c_char 4 true overwritable;
                add' "file_src" c_ushort 1; add' "global_encoding" c_ushort 1;
                add' "proj_id_1" c_long 1; add' "proj_id_2" c_ushort 1;
                add' "proj_id_3" c_ushort 1; add' "proj_id_4" c_ubyte 8;
                add "version_major" c_ubyte 1 false overwritable;
                add "version_minor" c_ubyte 1 false overwritable;
                add "sys_id" c_char 32 true true; add "gen_soft" c_char 32 true true;
                add' "created_day" c_ushort 1; add' "created_year" c_ushort 1;
                add "header_size" c_ushort 1 false overwritable;
                add' "offset_to_point_data" c_long 1;
                add' "num_variable_len_recs" c_long 1;
                add "pt_dat_format_id" c_ubyte 1 false overwritable;
                add' "pt_dat_rec_len" c_ushort 1; add' "num_pt_recs" c_long 1 ]
              (set_format_type (String.append "header version = " (tail_str fmt)) self) in
      if String.eqb fmt "h1.3" then
        block [ add' "num_pts_by_return" c_long 7;
                add' "x_scale" c_double 1; add' "y_scale" c_double 1;
                add' "z_scale" c_double 1; add' "x_offset" c_double 1;
                add' "y_offset" c_double 1; add' "z_offset" c_double 1;
                add' "x_max" c_double 1; add' "x_min" c_double 1;
                add' "y_max" c_double 1; add' "y_min" c_double 1;
                add' "z_max" c_double 1; add' "z_min" c_double 1 ] self
      else if str_in fmt ["h1.0"; "h1.1"; "h1.2"] then
        block [ add' "num_pts_by_return" c_long 5;
                add' "x_scale" c_double 1; add' "y_scale" c_double 1;
                add' "z_scale" c_double 1; add' "x_offset" c_double 1;
                add' "y_offset" c_double 1; add' "z_offset" c_double 1;
                add' "x_max" c_double 1; add' "x_min" c_double 1;
                add' "y_max" c_double 1; add' "y_min" c_double 1;
                add' "z_max" c_double 1; add' "z_min" c_double 1 ] self
      else Ok self
    else Ok self in
  let lookup' :=
    fold_left (fun m sp => <[Spec.name sp := sp]> m) (specs self) (∅ : gmap string Spec.t) in
  let* packer' := Struct.init (pt_fmt_long self) in
  Ok {| fmt := Format.fmt self; specs := specs self; rec_len := rec_len self;
        pt_fmt_long := pt_fmt_long self; format_type := format_type self;
        lookup := lookup'; packer := Some packer' |}.

(** [str(fmt)] for an identifier given as an integer. *)
Definition str_of_int (n : Z) : string := pretty n.

(** A Python [slice] object: each of its three parts is an integer or
    [None]. *)
Record pyslice : Type := mk_slice { start : option Z; stop : option Z; step : option Z }.

(** What [__getitem__] is called with: an integer or a slice. *)
Inductive index : Type :=
| Index (i : Z)
| Slice (sl : pyslice).

(** What [__getitem__] returns: one field spec or a list of them. *)
Inductive item : Type :=
| One (sp : Spec.t)
| Many (sps : list Spec.t).

(** [l[i]] on a list: a negative index counts from the end, an index out
    of range raises [IndexError]. *)
Definition list_index {A : Type} (l : list A) (i : Z) : result A :=
  let n := Z.of_nat (List.length l) in
  let i' := if i <? 0 then i + n else i in
  if (0 <=? i') && (i' <? n) then
    match l !! Z.to_nat i' with
    | Some x => Ok x
    | None => Raise IndexError
    end
  else Raise IndexError.

(** A bound of a slice brought into the list, as list slicing does for a
    non-zero step. *)
Definition clamp (len step v : Z) : Z :=
  if v <? 0 then
    let v' := v + len in
    if v' <? 0 then (if step <? 0 then -1 else 0) else v'
  else if len <=? v then (if step <? 0 then len - 1 else len)
  else v.

(** The elements at positions [pos], [pos + step], ... ([count] of them). *)
Fixpoint pick {A : Type} (l : list A) (pos step : Z) (count : nat) : list A :=
  match count with
  | O => []
  | S count' =>
      match (if pos <? 0 then None else l !! Z.to_nat pos) with
      | Some x => x :: pick l (pos + step) step count'
      | None => pick l (pos + step) step count'
      end
  end.

(** [l[start:stop:step]] for a non-zero step. *)
Definition list_slice {A : Type} (l : list A) (start stop : option Z) (step : Z) : list A :=
  let len := Z.of_nat (List.length l) in
  let start' :=
    match start with
    | Some v => clamp len step v
    | None => if step <? 0 then len - 1 else 0
    end in
  let stop' :=
    match stop with
    | Some v => clamp len step v
    | None => if step <? 0 then -1 else len
    end in
  let count :=
    if step <? 0 then
      (if stop' <? start' then (start' - stop' - 1) / (- step) + 1 else 0)
    else
      (if start' <? stop' then (stop' - start' - 1) / step + 1 else 0) in
  pick l start' step (Z.to_nat count).

(** [Format.__getitem__]: an integer has no [stop] attribute and indexes
    the list of specs; for a slice, a step that is [None] or zero counts as
    one. *)
Definition getitem (self : t) (idx : index) : result item :=
  match idx with
  | Index i => let* sp := list_index (specs self) i in Ok (One sp)
  | Slice sl =>
      let step :=
        match step sl with
        | Some st => if st =? 0 then 1 else st
        | None => 1
        end in
      Ok (Many (list_slice (specs self) (start sl) (stop sl) step))
  end.


End Format.

(** ** The reader's bit-string helpers

    [Point.make_nice] calls [reader.binary_str] and [reader.packed_str]; the
    reader class is not part of the two modules embedded here. *)

(** Modelled from the spec: [reader.binary_str], which is absent from the
    sources at hand.  The specification fixes the bit order: bit 0 is the
    least-significant bit, so the bit string of a byte lists bits 0 to 7. *)
Definition binary_str (n : Z) : list bool :=
  List.map (Z.testbit n) [0; 1; 2; 3; 4; 5; 6; 7].

(** Modelled from the spec: [reader.packed_str], absent as well; the integer
    whose bits, least-significant first, are the given ones. *)
Fixpoint packed_str (bits : list bool) : Z :=
  match bits with
  | [] => 0
  | b :: rest => Z.b2z b + 2 * packed_str rest
  end.

(** Modelled from the spec: the extraction rule of the specification,
    [value = (byte >> low_bit) & ((1 << width) - 1)]. *)
Definition extract (byte low_bit width : Z) : Z :=
  Z.land (Z.shiftr byte low_bit) (Z.shiftl 1 width - 1).

(** Modelled from the spec: the four sub-fields of the flag byte,
    [(return_number, number_of_returns, scan_direction_flag,
    edge_of_flight_line)], at bits 0-2, 3-5, 6 and 7. *)
Definition flag_fields (b : Z) : Z * Z * Z * Z :=
  (extract b 0 3, extract b 3 3, extract b 6 1, extract b 7 1).

(** Modelled from the spec: the flag byte put together again, each
    sub-field shifted to its low bit and the results OR-ed.  [Point.pack]
    itself packs the raw values and does not reassemble bytes. *)
Definition flag_byte_of (fields : Z * Z * Z * Z) : Z :=
  let '(return_number, number_of_returns, scan_direction_flag, edge_of_flight_line) := fields in
  Z.lor (Z.lor (Z.lor (Z.shiftl return_number 0) (Z.shiftl number_of_returns 3))
               (Z.shiftl scan_direction_flag 6))
        (Z.shiftl edge_of_flight_line 7).

(** Modelled from the spec: the four sub-fields of the classification
    byte, [(classification, synthetic, key_point, withheld)], at bits 0-4,
    5, 6 and 7. *)
Definition classification_fields (b : Z) : Z * Z * Z * Z :=
  (extract b 0 5, extract b 5 1, extract b 6 1, extract b 7 1).

(** Modelled from the spec: the classification byte put together again. *)
Definition classification_byte_of (fields : Z * Z * Z * Z) : Z :=
  let '(classification, synthetic, key_point, withheld) := fields in
  Z.lor (Z.lor (Z.lor (Z.shiftl classification 0) (Z.shiftl synthetic 5))
               (Z.shiftl key_point 6))
        (Z.shiftl withheld 7).

(** ** util.py: class Point *)

Module Point.

(** What [Point] uses of its reader: the point format. *)
Record Reader : Type := mk_reader { point_format : Format.t }.

(** A [Point] object; [attrs] holds the named attributes that
    [make_nice] adds to the instance dictionary. *)
Record t : Type := mk {
  reader : Reader;
  packer : Struct.t;
  unpacked : list pyval;
  attrs : gmap string pyval
}.

Definition setattr (k : string) (v : pyval) (self : t) : t :=
  {| reader := reader self; packer := packer self; unpacked := unpacked self;
     attrs := <[k := v]> (attrs self) |}.

Definition getattr (self : t) (k : string) : result pyval :=
  match attrs self !! k with
  | Some v => Ok v
  | None => Raise (AttributeError k)
  end.

(** The loop of [make_nice]: the i-th value is stored under the name of
    the i-th field; a value sequence shorter than the schema raises
    [IndexError]. *)
Fixpoint name_values (dims : list Spec.t) (i : nat) (self : t) : result t :=
  match dims with
  | [] => Ok self
  | dim :: dims' =>
      match unpacked self !! i with
      | Some v => name_values dims' (S i) (setattr (Spec.name dim) v self)
      | None => Raise IndexError
      end
  end.

(** [bstr[lo:hi]]. *)
Definition slice {A : Type} (lo hi : nat) (l : list A) : list A :=
  take (hi - lo) (drop lo l).

(** The bit string of an attribute that holds a byte. *)
Definition bits_of (v : pyval) : result (list bool) :=
  match v with
  | PInt n => Ok (binary_str n)
  | _ => Raise TypeError
  end.

(** [Point.make_nice].  The bit string always has eight characters, so the
    single characters [bstr[5]], [bstr[6]] and [bstr[7]] are the slices of
    length one. *)
Definition make_nice (self : t) : result t :=
  let* self := name_values (Format.specs (point_format (reader self))) 0 self in
  let* flag_byte := getattr self "flag_byte" in
  let* bstr := bits_of flag_byte in
  let self := setattr "return_num" (PInt (packed_str (slice 0 3 bstr))) self in
  let self := setattr "num_returns" (PInt (packed_str (slice 3 6 bstr))) self in
  let self := setattr "scan_dir_flag" (PInt (packed_str (slice 6 7 bstr))) self in
  let self := setattr "edge_flight_line" (PInt (packed_str (slice 7 8 bstr))) self in
  let* raw_classification := getattr self "raw_classification" in
  let* bstr := bits_of raw_classification in
  let self := setattr "classification" (PInt (packed_str (slice 0 5 bstr))) self in
  let self := setattr "synthetic" (PInt (packed_str (slice 5 6 bstr))) self in
  let self := setattr "key_point" (PInt (packed_str (slice 6 7 bstr))) self in
  let self := setattr "withheld" (PInt (packed_str (slice 7 8 bstr))) self in
  Ok self.

(** [Point.__init__].  The two optional arguments default to [False],
    rendered by [None]. *)
Definition init (reader : Reader) (bytestr : option (list byte))
    (unpacked_list : option (list pyval)) (nice : bool) : result t :=
  let* packer :=
    match Format.packer (point_format reader) with
    | Some p => Ok p
    | None => Raise (AttributeError "packer")
    end in
  let* unpacked :=
    match bytestr, unpacked_list with
    | Some b, _ => Struct.unpack packer b
    | None, Some l => Ok l
    | None, None =>
        Raise (LaspyException "No byte string or attribute list supplied for point.")
    end in
  let self := {| reader := reader; packer := packer; unpacked := unpacked; attrs := ∅ |} in
  if nice then make_nice self else Ok self.

(** [Point.pack]. *)
Definition pack (self : t) : result (list byte) :=
  Struct.pack (packer self) (unpacked self).

End Point.

(** ** The library module datetime

    The part of [datetime] that [header.py] uses: the constructor
    [datetime(year, month, day)] with its range checks, [timedelta(days)],
    the sum of a [datetime] and a [timedelta], and the difference of two
    [datetime]s.  Dates are those of the proleptic Gregorian calendar between
    0001-01-01 (ordinal 1) and 9999-12-31 (ordinal [MAXORDINAL]); time zones
    are not modelled. *)

Module Datetime.

Definition MINYEAR : Z := 1.
Definition MAXYEAR : Z := 9999.
Definition MAXORDINAL : Z := 3652059.

Definition is_leap (y : Z) : bool :=
  (y mod 4 =? 0) && (negb (y mod 100 =? 0) || (y mod 400 =? 0)).

Definition days_before_year (y : Z) : Z :=
  let y' := y - 1 in y' * 365 + y' / 4 - y' / 100 + y' / 400.

Definition DAYS_IN_MONTH : list Z := [31; 28; 31; 30; 31; 30; 31; 31; 30; 31; 30; 31].

Definition days_in_month (y m : Z) : Z :=
  if (m =? 2) && is_leap y then 29
  else default 0 (DAYS_IN_MONTH !! Z.to_nat (m - 1)).

Definition DAYS_BEFORE_MONTH : list Z :=
  [0; 31; 59; 90; 120; 151; 181; 212; 243; 273; 304; 334].

Definition days_before_month (y m : Z) : Z :=
  default 0 (DAYS_BEFORE_MONTH !! Z.to_nat (m - 1))
  + (if (2 <? m) && is_leap y then 1 else 0).

Definition ymd2ord (y m d : Z) : Z :=
  days_before_year y + days_before_month y m + d.

(** Month and day of the [n]-th day of a year, counted from zero: the
    estimate [(n + 50) >> 5] of the month is corrected when it is one too
    large. *)
Definition month_day (leapyear : bool) (n : Z) : Z * Z :=
  let m := Z.shiftr (n + 50) 5 in
  let preceding :=
    default 0 (DAYS_BEFORE_MONTH !! Z.to_nat (m - 1))
    + (if (2 <? m) && leapyear then 1 else 0) in
  if n <? preceding then
    let m := m - 1 in
    let preceding :=
      preceding
      - (default 0 (DAYS_IN_MONTH !! Z.to_nat (m - 1))
         + (if (m =? 2) && leapyear then 1 else 0)) in
    (m, n - preceding + 1)
  else (m, n - preceding + 1).

(** The inverse of [ymd2ord], by 400-, 100-, 4- and 1-year cycles. *)
Definition ord2ymd (ordinal : Z) : Z * Z * Z :=
  let n := ordinal - 1 in
  let n400 := n / 146097 in
  let n := n mod 146097 in
  let y := n400 * 400 + 1 in
  let n100 := n / 36524 in
  let n := n mod 36524 in
  let n4 := n / 1461 in
  let n := n mod 1461 in
  let n1 := n / 365 in
  let n := n mod 365 in
  let y := y + n100 * 100 + n4 * 4 + n1 in
  if (n1 =? 4) || (n100 =? 4) then (y - 1, 12, 31)
  else
    let leapyear := (n1 =? 3) && (negb (n4 =? 24) || (n100 =? 3)) in
    let '(m, d) := month_day leapyear n in
    (y, m, d).

(** The range of a C [int], into which the constructor converts its
    arguments before it checks them. *)
Definition INT_MIN : Z := - 2 ^ 31.
Definition INT_MAX : Z := 2 ^ 31 - 1.

Definition fits_int (z : Z) : bool := (INT_MIN <=? z) && (z <=? INT_MAX).

(** [datetime.datetime(y, m, d)]: midnight of the given day.  An argument
    that does not fit a C [int] raises [OverflowError]; then year, month and
    day are checked in this order. *)
Definition init (y m d : Z) : result datetime :=
  if negb (fits_int y && fits_int m && fits_int d) then Raise OverflowError
  else if negb ((MINYEAR <=? y) && (y <=? MAXYEAR)) then Raise ValueError
  else if negb ((1 <=? m) && (m <=? 12)) then Raise ValueError
  else if negb ((1 <=? d) && (d <=? days_in_month y m)) then Raise ValueError
  else Ok {| year := y; month := m; day := d;
             hour := 0; minute := 0; second := 0; microsecond := 0 |}.

Definition toordinal (dt : datetime) : Z := ymd2ord (year dt) (month dt) (day dt).

(** A duration, normalised as [timedelta] keeps it. *)
Record timedelta : Type := mk_timedelta { days : Z; seconds : Z; microseconds : Z }.

(** [datetime.timedelta(d)]. *)
Definition timedelta_days (d : Z) : result timedelta :=
  if Z.abs d <=? 999999999
  then Ok {| days := d; seconds := 0; microseconds := 0 |}
  else Raise OverflowError.

(** [dt + delta]. *)
Definition add (dt : datetime) (delta : timedelta) : result datetime :=
  let us := microsecond dt + microseconds delta in
  let secs := hour dt * 3600 + minute dt * 60 + second dt + seconds delta + us / 1000000 in
  let ordinal := toordinal dt + days delta + secs / 86400 in
  let secs := secs mod 86400 in
  if (0 <? ordinal) && (ordinal <=? MAXORDINAL) then
    let '(y, m, d) := ord2ymd ordinal in
    Ok {| year := y; month := m; day := d;
          hour := secs / 3600; minute := (secs mod 3600) / 60; second := secs mod 60;
          microsecond := us mod 1000000 |}
  else Raise OverflowError.


End Datetime.

(** ** The built-ins str.split and int *)

(** [s.split(sep)] for a one-character separator. *)
Fixpoint split (sep : ascii) (s : string) : list string :=
  match s with
  | EmptyString => [EmptyString]
  | String c rest =>
      if Ascii.eqb c sep then EmptyString :: split sep rest
      else
        match split sep rest with
        | piece :: pieces => String c piece :: pieces
        | [] => [String c EmptyString]
        end
  end.

Definition is_space (c : ascii) : bool :=
  let n := N_of_ascii c in ((9 <=? n) && (n <=? 13))%N || (n =? 32)%N.

Definition digit_of (c : ascii) : option Z :=
  let n := Z.of_N (N_of_ascii c) in
  if (48 <=? n) && (n <=? 57) then Some (n - 48) else None.

Fixpoint lstrip (s : string) : string :=
  match s with
  | String c rest => if is_space c then lstrip rest else s
  | EmptyString => EmptyString
  end.

Definition strip (s : string) : string :=
  String.rev (lstrip (String.rev (lstrip s))).

Fixpoint digits_value (acc : Z) (s : string) : option Z :=
  match s with
  | EmptyString => Some acc
  | String c rest =>
      match digit_of c with
      | Some dgt => digits_value (10 * acc + dgt) rest
      | None => None
      end
  end.

(** [int(s)] on a string, base ten: blanks around, an optional sign, at
    least one digit; [ValueError] otherwise. *)
Definition py_int (s : string) : result Z :=
  let unsigned (digits : string) : result Z :=
    match digits with
    | EmptyString => Raise ValueError
    | _ => match digits_value 0 digits with
           | Some v => Ok v
           | None => Raise ValueError
           end
    end in
  match strip s with
  | String "-" digits => let* v := unsigned digits in Ok (- v)
  | String "+" digits => unsigned digits
  | digits => unsigned digits
  end.

(** ** header.py *)

(** [leap_year]. *)
Definition leap_year (year : Z) : bool :=
  if year mod 400 =? 0 then true
  else if year mod 100 =? 0 then true
  else if year mod 4 =? 0 then false
  else false.

Module Header.

(** A [Header] object is its instance dictionary: [__init__] stores one
    attribute per dimension of the header format, under the dimension's
    name.  The list of dimensions belongs to the reader and is a parameter
    here, so a header is any finite map from attribute names to values. *)
Record t : Type := mk { attrs : gmap string pyval }.

(** [self.name]. *)
Definition getattr (self : t) (k : string) : result pyval :=
  match attrs self !! k with
  | Some v => Ok v
  | None => Raise (AttributeError k)
  end.

(** The reader delivers integers for the numeric header fields; a value
    of another type in their place is outside the model and is reported as
    [TypeError]. *)
Definition as_int (v : pyval) : result Z :=
  match v with
  | PInt n => Ok n
  | _ => Raise TypeError
  end.

Definition getint (self : t) (k : string) : result Z :=
  let* v := getattr self k in as_int v.

(** *** Read accessors *)

Definition get_filesignature (self : t) : result pyval := getattr self "FileSig".
Definition get_filesourceid (self : t) : result pyval := getattr self "FileSrc".
Definition get_global_encoding (self : t) : result pyval := getattr self "GlobalEncoding".
Definition get_majorversion (self : t) : result pyval := getattr self "VersionMajor".
Definition get_minorversion (self : t) : result pyval := getattr self "VersionMinor".
Definition get_systemid (self : t) : result pyval := getattr self "SysId".
Definition get_softwareid (self : t) : result pyval := getattr self "GenSoft".
Definition get_headersize (self : t) : result pyval := getattr self "HeaderSize".
Definition get_dataoffset (self : t) : result pyval := getattr self "OffsetToPointData".
Definition get_dataformatid (self : t) : result pyval := getattr self "PtDatFormatId".
Definition get_pointrecordsbyreturncount (self : t) : result pyval :=
  getattr self "NumPtsByReturn".

(** [get_version]: ['%d.%d' % (major, minor)]. *)
Definition get_version (self : t) : result pyval :=
  let* major := bind (get_majorversion self) as_int in
  let* minor := bind (get_minorversion self) as_int in
  Ok (PStr (String.append (pretty major) (String.append "." (pretty minor)))).

Definition triple (self : t) (x y z : string) : result pyval :=
  let* vx := getattr self x in
  let* vy := getattr self y in
  let* vz := getattr self z in
  Ok (PList [vx; vy; vz]).

Definition get_scale (self : t) : result pyval := triple self "XScale" "YScale" "ZScale".
Definition get_offset (self : t) : result pyval := triple self "XOffset" "YOffset" "ZOffset".
Definition get_min (self : t) : result pyval := triple self "XMin" "YMin" "ZMin".
Definition get_max (self : t) : result pyval := triple self "XMax" "YMax" "ZMax".

(** [get_date].  [Ok None] is the answer "no date". *)
Definition get_date (self : t) : result (option datetime) :=
  let* day := getint self "CreatedDay" in
  let* year := getint self "CreatedYear" in
  if (year =? 0) && (day =? 0) then Ok None
  else if negb (leap_year year) then
    let* jan1 := Datetime.init year 1 1 in
    let* delta := Datetime.timedelta_days day in
    let* date := Datetime.add jan1 delta in
    Ok (Some date)
  else
    let* jan1 := Datetime.init year 1 1 in
    let* delta := Datetime.timedelta_days (day - 1) in
    let* date := Datetime.add jan1 delta in
    Ok (Some date).

Definition lenDict : gmap Z Z :=
  list_to_map [(0, 20); (1, 28); (2, 26); (3, 34); (4, 57); (5, 63)].

(** [get_datarecordlength]; it reads the attribute [PtDatFormatID]. *)
Definition get_datarecordlength (self : t) : result Z :=
  let* id := getint self "PtDatFormatID" in
  dict_get lenDict id.

Definition get_schema (self : t) : result pyval := Ok PNone.
Definition get_vlrs (self : t) : result pyval := Ok PNone.
Definition get_srs (self : t) : result pyval := Ok PNone.

(** *** Write accessors

    A method that may change the header and may raise: it returns the
    header it leaves behind together with its result. *)
Definition method (A : Type) : Type := t -> t * result A.

Definition ret {A : Type} (a : A) : method A := fun self => (self, Ok a).

Definition lift {A : Type} (r : result A) : method A := fun self => (self, r).

Definition then_ {A B : Type} (m : method A) (k : A -> method B) : method B :=
  fun self =>
    match m self with
    | (self', Ok a) => k a self'
    | (self', Raise e) => (self', Raise e)
    end.

Definition set_majorversion (value : pyval) : method unit := ret tt.
Definition set_minorversion (value : pyval) : method unit := ret tt.

(** [set_version]: the value is split at the dot and both parts are
    converted before the two (inert) property setters are called. *)
Definition set_version (value : pyval) : method unit :=
  match value with
  | PStr v =>
      match split "." v with
      | [major; minor] =>
          then_ (lift (py_int major)) (fun major' =>
          then_ (set_majorversion (PInt major')) (fun _ =>
          then_ (lift (py_int minor)) (fun minor' =>
          set_minorversion (PInt minor'))))
      | _ => lift (Raise ValueError)
      end
  | _ => lift (Raise (AttributeError "split"))
  end.




(** [set_dataformatid], for an integer argument: the one write accessor
    with a check of its own, [value not in range(6)]. *)
Definition set_dataformatid (value : Z) : method unit :=
  if negb ((0 <=? value) && (value <? 6))
  then lift (Raise (LaspyHeaderException "Format ID must be 3, 2, 1, or 0"))
  else ret tt.



End Header.

(** ** Properties *)

(** *** Definitions for the statements *)

(** The canonical size of a point record, by point format. *)
Definition canonical_length (id : Z) : option Z :=
  match id with
  | 0 => Some 20 | 1 => Some 28 | 2 => Some 26
  | 3 => Some 34 | 4 => Some 57 | 5 => Some 63
  | _ => None
  end.

(** The sum of the byte lengths of the fields, in construction order. *)
Definition sum_byte_lengths (specs : list Spec.t) : Z :=
  fold_left (fun acc sp => acc + Spec.num sp * Spec.length sp) specs 0.

(** The check of one point format: built, of the canonical length, which
    is the sum of the byte lengths. *)
Definition record_length_ok (n : Z) (overwritable : bool) : bool :=
  match Format.init (Format.str_of_int n) overwritable, canonical_length n with
  | Ok F, Some len =>
      (Format.rec_len F =? len) && (Format.rec_len F =? sum_byte_lengths (Format.specs F))
  | _, _ => false
  end.

(** The eleven identifiers of the schema registry. *)
Definition identifiers : list string :=
  ["0"; "1"; "2"; "3"; "4"; "5"; "VLR"; "h1.0"; "h1.1"; "h1.2"; "h1.3"].

Definition point_identifiers : list string := ["0"; "1"; "2"; "3"; "4"; "5"].

(** The claim on field arity as the specification words it: a count that
    is zero or negative makes the construction of a field spec fail. *)
Definition arity_checked : Prop :=
  forall name offs fmt num pack overwritable idx,
    num <= 0 ->
    exists e, Spec.init name offs fmt num pack true overwritable idx = Raise e.


(** Midnight of the day with the given day number. *)
Definition date_of_ordinal (ordinal : Z) : datetime :=
  let '(y, m, d) := Datetime.ord2ymd ordinal in
  {| year := y; month := m; day := d;
     hour := 0; minute := 0; second := 0; microsecond := 0 |}.

(** The day that lies [k] days after the first of January of year [y], at
    midnight, when it is a day of the calendar. *)
Definition jan1_plus (y k : Z) : result (option datetime) :=
  let ordinal := Datetime.ymd2ord y 1 1 + k in
  if (0 <? ordinal) && (ordinal <=? Datetime.MAXORDINAL)
  then Ok (Some (date_of_ordinal ordinal))
  else Raise OverflowError.

(** The claim on the creation date as the specification words it: unless
    year and day are both zero, a date is returned. *)
Definition date_always_returned : Prop :=
  forall (h : Header.t) (y d : Z),
    Header.getattr h "CreatedYear" = Ok (PInt y) ->
    Header.getattr h "CreatedDay" = Ok (PInt d) ->
    0 <= y < 65536 -> 0 <= d < 65536 ->
    (y = 0 /\ d = 0) \/ exists dt, Header.get_date h = Ok (Some dt).

(** A header that holds the given attributes. *)
Definition header_of (fields : list (string * pyval)) : Header.t :=
  {| Header.attrs := list_to_map fields |}.

(** Offsets that start at zero and advance by the byte length of the
    previous field, hence strictly. *)
Definition offsets_chained (specs : list Spec.t) : Prop :=
  (forall sp, specs !! 0%nat = Some sp -> Spec.offs sp = 0)
  /\ (forall (i : nat) (a b : Spec.t),
        specs !! i = Some a -> specs !! S i = Some b ->
        Spec.offs b = Spec.offs a + Spec.num a * Spec.length a
        /\ Spec.offs a < Spec.offs b).

(** A field whose stored element size is the one of the table and whose
    byte length is positive. *)
Definition spec_sound (sp : Spec.t) : Prop :=
  dict_get fmtLen (Spec.fmt sp) = Ok (Spec.length sp)
  /\ 0 < Spec.length sp /\ 0 < Spec.num sp.

(** What every call of [Format.add] with a positive count maintains. *)
Definition layout_inv (self : Format.t) : Prop :=
  offsets_chained (Format.specs self)
  /\ Forall spec_sound (Format.specs self)
  /\ Format.rec_len self = sum_byte_lengths (Format.specs self).

Definition preserves (step : Format.t -> result Format.t) : Prop :=
  forall self self', step self = Ok self' -> layout_inv self -> layout_inv self'.

(** A value of the type and width that a format character stands for. *)
Definition fits (c : Struct.code) (v : pyval) : bool :=
  match c, v with
  | (Struct.Code_L | Struct.Code_H | Struct.Code_B | Struct.Code_Q), PInt n =>
      Struct.in_range c n
  | (Struct.Code_f | Struct.Code_d), PFloat bits => Struct.in_range c bits
  | Struct.Code_s, PStr (String _ EmptyString) => true
  | _, _ => false
  end.

(** The format character of a field, [fmt[1]]. *)
Definition spec_code (sp : Spec.t) : option Struct.code :=
  match String.get 1 (Spec.fmt sp) with
  | Some c => Struct.code_of_ascii c
  | None => None
  end.

(** A raw value that matches a field: of the declared type and width.  A
    text field of [num] characters holds a string of [num] characters; a
    numeric field holds one number when [num] is 1 and the list of its [num]
    elements otherwise. *)
Definition value_matches (sp : Spec.t) (v : pyval) : bool :=
  match spec_code sp with
  | Some Struct.Code_s =>
      match v with
      | PStr str => Z.of_nat (String.length str) =? Spec.num sp
      | _ => false
      end
  | Some c =>
      if Spec.num sp =? 1 then fits c v
      else
        match v with
        | PList l => (Z.of_nat (List.length l) =? Spec.num sp) && forallb (fits c) l
        | _ => false
        end
  | None => false
  end.

(** A well-formed raw value sequence for a schema: one matching value per
    field. *)
Fixpoint well_formed (specs : list Spec.t) (values : list pyval) : bool :=
  match specs, values with
  | [], [] => true
  | sp :: specs', v :: values' => value_matches sp v && well_formed specs' values'
  | _, _ => false
  end.

(** The two directions of the record codec: a point built from a value
    sequence and packed, and a point built from a byte block. *)
Definition encode (F : Format.t) (values : list pyval) : result (list byte) :=
  let* p := Point.init (Point.mk_reader F) None (Some values) false in
  Point.pack p.

Definition decode (F : Format.t) (data : list byte) : result (list pyval) :=
  let* p := Point.init (Point.mk_reader F) (Some data) None false in
  Ok (Point.unpacked p).

#[local] Instance code_eq_dec : EqDecision Struct.code.
Proof. solve_decision. Defined.

(** What the codec of a schema needs in order to read and write whole
    records: a packer whose items are the fields, one element each, and
    whose size is the record length. *)
Definition packer_covers_record (F : Format.t) : bool :=
  match Format.packer F with
  | Some st =>
      (Struct.size st =? Format.rec_len F)
      && (Struct.size st =? Struct.calcsize (Struct.codes st))
      && bool_decide (mapM spec_code (Format.specs F) = Some (Struct.codes st))
      && forallb (fun sp => Spec.num sp =? 1) (Format.specs F)
  | None => false
  end.

(** A record of the VLR schema: reserved, user id (16 characters), record
    id, length after header, description (32 characters). *)
Definition vlr_values : list pyval :=
  [PInt 1; PStr "0123456789abcdef"; PInt 34735; PInt 40;
   PStr "abcdefghijklmnopqrstuvwxyzABCDEF"].

(** A block of 8 bytes and a block of 54 bytes, the record length of the
    VLR schema. *)
Definition vlr_block_8 : list byte :=
  [x01; x00; x4c; x6f; x87; x28; x00; x47].

Definition vlr_block_54 : list byte := repeat x00 54.

(** A computation on the schema of an identifier, when it is built. *)
Definition on_schema {A : Type} (id : string) (overwritable : bool)
    (k : Format.t -> result A) : result A :=
  let* F := Format.init id overwritable in k F.

(** One value per format character, each fitting it. *)
Fixpoint fits_all (cs : list Struct.code) (values : list pyval) : bool :=
  match cs, values with
  | [], [] => true
  | c :: cs', v :: values' => fits c v && fits_all cs' values'
  | _, _ => false
  end.

Definition is_text (c : Struct.code) : bool :=
  match c with Struct.Code_s => true | _ => false end.

(** The outcome of encoding, against the well-formedness of the values:
    success exactly on well-formed values, and no error but
    [struct.error]. *)
Definition encode_outcome_ok (F : Format.t) (values : list pyval) : bool :=
  match encode F values with
  | Ok _ => well_formed (Format.specs F) values
  | Raise StructError => negb (well_formed (Format.specs F) values)
  | Raise _ => false
  end.

(** The outcome of decoding, against the length of the block. *)
Definition decode_outcome_ok (F : Format.t) (data : list byte) : bool :=
  match decode F data with
  | Ok _ => Z.of_nat (List.length data) =? Format.rec_len F
  | Raise StructError => negb (Z.of_nat (List.length data) =? Format.rec_len F)
  | Raise _ => false
  end.

(** A check that holds of the schemas of the given identifiers, for both
    values of the flag. *)
Definition schemas_pass (chk : Format.t -> bool) (ids : list string) : bool :=
  forallb (fun id =>
             match Format.init id false, Format.init id true with
             | Ok F, Ok F' => chk F && chk F'
             | _, _ => false
             end) ids.

(** No item of the packer is a text item. *)
Definition packer_without_text (F : Format.t) : bool :=
  match Format.packer F with
  | Some st => forallb (fun c => negb (is_text c)) (Struct.codes st)
  | None => false
  end.


Definition point0_block : list byte :=
  [x64; x00; x00; x00; xc8; x00; x00; x00; xff; xff; xff; xff;
   x07; x00; xa5; x02; x00; x09; x01; x00].


(** Field names are pairwise distinct. *)
Definition names_distinct (F : Format.t) : bool :=
  bool_decide (NoDup (List.map Spec.name (Format.specs F))).




(** The sum of the element sizes of the fields, each counted once. *)
Definition sum_element_sizes (specs : list Spec.t) : Z :=
  fold_right (fun sp acc => Spec.length sp + acc) 0 specs.

(** The packer of a schema has one item per field, of the field's element
    type, whatever the element count. *)
Definition packer_one_per_field (F : Format.t) : bool :=
  match Format.packer F with
  | Some st =>
      String.eqb (Struct.format st) (Format.pt_fmt_long F)
      && bool_decide (mapM spec_code (Format.specs F) = Some (Struct.codes st))
      && (Struct.size st =? sum_element_sizes (Format.specs F))
      && (Struct.size st <=? Format.rec_len F)
      && Bool.eqb (Struct.size st =? Format.rec_len F)
                  (forallb (fun sp => Spec.num sp =? 1) (Format.specs F))
  | None => false
  end.

(** The attributes that [make_nice] derives from the two bit-field
    bytes. *)
Definition derived_names : list string :=
  ["return_num"; "num_returns"; "scan_dir_flag"; "edge_flight_line";
   "classification"; "synthetic"; "key_point"; "withheld"].

(** A field of one unsigned byte. *)
Definition byte_field (sp : Spec.t) : bool :=
  bool_decide (spec_code sp = Some Struct.Code_B) && (Spec.num sp =? 1).

(** What [make_nice] relies on in a schema: no field bears a derived name,
    and the fields at positions 4 and 5 are the two bit-field bytes. *)
Definition nice_ready (F : Format.t) : bool :=
  forallb (fun sp => negb (Format.str_in (Spec.name sp) derived_names)) (Format.specs F)
  && match Format.specs F !! 4%nat, Format.specs F !! 5%nat with
     | Some a, Some b =>
         String.eqb (Spec.name a) "flag_byte" && byte_field a
         && String.eqb (Spec.name b) "raw_classification" && byte_field b
     | _, _ => false
     end.

(** No field is named [flag_byte]. *)
Definition without_flag_byte (F : Format.t) : bool :=
  forallb (fun sp => negb (String.eqb (Spec.name sp) "flag_byte")) (Format.specs F).

Definition other_identifiers : list string := ["VLR"; "h1.0"; "h1.1"; "h1.2"; "h1.3"].

(** Every character of a string passes a test. *)
Fixpoint all_chars (test : ascii -> bool) (s : string) : bool :=
  match s with
  | EmptyString => true
  | String c rest => test c && all_chars test rest
  end.

Definition is_digit (c : ascii) : bool :=
  match digit_of c with Some _ => true | None => false end.

(** A character that is neither blank nor the given separator. *)
Definition plain (sep c : ascii) : bool := negb (is_space c) && negb (Ascii.eqb c sep).

(** The header fields that receive the flag of the schema constructor. *)
Definition protected_names : list string :=
  ["file_sig"; "version_major"; "version_minor"; "header_size"; "pt_dat_format_id"].

(** A field spec with the overwritable mark of the protected fields set to
    the given flag. *)
Definition protect (flag : bool) (sp : Spec.t) : Spec.t :=
  if Format.str_in (Spec.name sp) protected_names then
    {| Spec.name := Spec.name sp; Spec.offs := Spec.offs sp; Spec.Format := Spec.Format sp;
       Spec.fmt := Spec.fmt sp; Spec.length := Spec.length sp; Spec.num := Spec.num sp;
       Spec.pack := Spec.pack sp; Spec.np_fmt := Spec.np_fmt sp;
       Spec.default := Spec.default sp; Spec.overwritable := flag; Spec.idx := Spec.idx sp |}
  else sp.

(** An identifier of a header schema: [fmt[0] == "h"]. *)
Definition is_header (fmt : string) : bool :=
  match String.get 0 fmt with
  | Some c => Ascii.eqb c "h"
  | None => false
  end.

#[local] Instance struct_eq_dec : EqDecision Struct.t.
Proof. solve_decision. Defined.

(** What the two schemas of an identifier, built without and with the
    flag, have in common. *)
Definition flag_check (fmt : string) : bool :=
  match Format.init fmt false, Format.init fmt true with
  | Ok F, Ok T =>
      (Format.rec_len F =? Format.rec_len T)
      && String.eqb (Format.pt_fmt_long F) (Format.pt_fmt_long T)
      && bool_decide (Format.format_type F = Format.format_type T)
      && bool_decide (Format.packer F = Format.packer T)
      && forallb Spec.overwritable (Format.specs T)
      && forallb (fun name =>
                    Bool.eqb (bool_decide (is_Some (Format.lookup F !! name))) (is_header fmt)
                    && Bool.eqb (bool_decide (is_Some (Format.lookup T !! name)))
                                (is_header fmt))
                 protected_names
  | _, _ => false
  end.

(** The pairs of point formats of which the second adds fields to the
    first. *)
Definition extensions : list (string * string) :=
  [("0", "1"); ("0", "2"); ("0", "3"); ("0", "4"); ("0", "5");
   ("1", "3"); ("1", "4"); ("1", "5"); ("3", "5")].

Definition extension_check (overwritable : bool) (pair : string * string) : bool :=
  match Format.init (fst pair) overwritable, Format.init (snd pair) overwritable with
  | Ok A, Ok B =>
      Format.str_in (fst pair) point_identifiers
      && Format.str_in (snd pair) point_identifiers
      && (Format.rec_len A <=? Format.rec_len B)
      && match Format.packer A, Format.packer B with
         | Some s, Some b =>
             bool_decide (Struct.codes s
                          = take (List.length (Format.specs A)) (Struct.codes b))
         | _, _ => false
         end
  | _, _ => false
  end.

Definition is_ubyte (c : ctype) : bool :=
  match c with c_ubyte => true | _ => false end.

(** The outcome of packing the default values of the fields of a schema,
    against the presence of unsigned-byte fields. *)
Definition defaults_outcome_ok (F : Format.t) : bool :=
  match encode F (List.map Spec.default (Format.specs F)) with
  | Ok _ =>
      String.eqb (Format.fmt F) "VLR"
      && forallb (fun sp => negb (is_ubyte (Spec.Format sp))) (Format.specs F)
  | Raise StructError =>
      negb (String.eqb (Format.fmt F) "VLR")
      && existsb (fun sp => is_ubyte (Spec.Format sp) && is_str (Spec.default sp))
                 (Format.specs F)
  | Raise _ => false
  end.

(** A time of day within its ranges. *)
Definition valid_time (v : datetime) : bool :=
  (0 <=? hour v) && (hour v <? 24) && (0 <=? minute v) && (minute v <? 60)
  && (0 <=? second v) && (second v <? 60)
  && (0 <=? microsecond v) && (microsecond v <? 1000000).

(** A date-time that the [datetime] constructor accepts. *)
Definition valid_datetime (v : datetime) : bool :=
  is_ok (Datetime.init (year v) (month v) (day v)) && valid_time v.

(** The same day at midnight. *)
Definition midnight (v : datetime) : datetime :=
  {| year := year v; month := month v; day := day v;
     hour := 0; minute := 0; second := 0; microsecond := 0 |}.

(** The number of the day of a date within its year, counted from zero
    at the first of January. *)
Definition day_of_year (v : datetime) : Z :=
  Datetime.toordinal v - Datetime.ymd2ord (year v) 1 1.

(** The check of one month and day: the day number in the year leads
    [month_day] back to them, and only the last day of a leap year has day
    number 365. *)
Definition month_day_check (leap : bool) (m d : Z) : bool :=
  let dim := if (m =? 2) && leap then 29
             else default 0 (Datetime.DAYS_IN_MONTH !! Z.to_nat (m - 1)) in
  negb (d <=? dim)
  || (let r := default 0 (Datetime.DAYS_BEFORE_MONTH !! Z.to_nat (m - 1))
               + (if (2 <? m) && leap then 1 else 0) + d - 1 in
      let '(m', d') := Datetime.month_day leap r in
      (m' =? m) && (d' =? d) && ((r <? 365) || ((m =? 12) && (d =? 31)))).

(** The point formats whose fields are integers and double-precision
    numbers; formats 4 and 5 add single-precision fields. *)
Definition double_identifiers : list string := ["0"; "1"; "2"; "3"].

Definition int_code (c : Struct.code) : bool :=
  match c with
  | Struct.Code_L | Struct.Code_H | Struct.Code_B | Struct.Code_Q => true
  | _ => false
  end.

(** The point formats all of whose fields are integers. *)
Definition integer_identifiers : list string := ["0"; "2"].

(** Every field of the schema has an integer code. *)
Definition integer_fields (F : Format.t) : bool :=
  forallb (fun sp => match spec_code sp with
                     | Some c => int_code c
                     | None => false
                     end) (Format.specs F).


(** A value sequence without floats.  Python 2 converts a float offered to
    an integer field instead of refusing it; that conversion is outside the
    model of [Struct]. *)
Definition no_float (values : list pyval) : bool :=
  forallb (fun v => match v with PFloat _ => false | _ => true end) values.








(** The number of fields of the schema of each identifier: nine core
    fields of a point, with one more for the GPS time, three for the colour
    and seven for the wave packet where the format has them; five fields of
    a VLR header; thirty-two fields of a file header. *)
Definition field_count (fmt : string) : nat :=
  if String.eqb fmt "0" then 9
  else if String.eqb fmt "1" then 10
  else if String.eqb fmt "2" then 12
  else if String.eqb fmt "3" then 13
  else if String.eqb fmt "4" then 17
  else if String.eqb fmt "5" then 20
  else if String.eqb fmt "VLR" then 5
  else if Format.str_in fmt ["h1.0"; "h1.1"; "h1.2"; "h1.3"] then 32
  else 0.

(** *** Results *)

Lemma bind_Ok {A B : Type} (r : result A) (k : A -> result B) (b : B) :
  bind r k = Ok b -> exists a, r = Ok a /\ k a = Ok b.
Proof. destruct r as [a|e]; simpl; [eauto | discriminate]. Qed.

Lemma str_in_cases (x : string) (xs : list string) :
  Format.str_in x xs = true -> In x xs.
Proof.
  unfold Format.str_in. rewrite existsb_exists.
  intros (y & Hy & E). apply String.eqb_eq in E. now subst.
Qed.

(** *** Record lengths *)

Lemma record_length_ok_all :
  forallb (fun n => record_length_ok n false && record_length_ok n true)
          [0; 1; 2; 3; 4; 5] = true.
Proof. vm_compute. reflexivity. Qed.

(** C1. For each point format 0..5, given as an integer and turned into
    its decimal string as the constructor does, the schema is built, its
    record length is the canonical 20, 28, 26, 34, 57 or 63 bytes, and that
    length is the sum of the byte lengths of its fields taken in order. *)
Theorem C1_record_length (n : Z) (overwritable : bool) :
  0 <= n <= 5 ->
  exists F,
    Format.init (Format.str_of_int n) overwritable = Ok F
    /\ Some (Format.rec_len F) = canonical_length n
    /\ Format.rec_len F = sum_byte_lengths (Format.specs F).
Proof.
  intros Hn.
  assert (Hin : In n [0; 1; 2; 3; 4; 5]) by (simpl; lia).
  pose proof record_length_ok_all as Hall.
  rewrite forallb_forall in Hall. specialize (Hall n Hin).
  apply andb_prop in Hall as [Hf Ht].
  assert (Hok : record_length_ok n overwritable = true) by (destruct overwritable; assumption).
  unfold record_length_ok in Hok.
  destruct (Format.init (Format.str_of_int n) overwritable) as [F|e]; [|discriminate].
  destruct (canonical_length n) as [len|]; [|discriminate].
  apply andb_prop in Hok as [H1 H2].
  apply Z.eqb_eq in H1, H2.
  exists F. repeat split; congruence.
Qed.

Lemma C1_record_length_witness :
  exists F,
    Format.init (Format.str_of_int 4) false = Ok F
    /\ Some (Format.rec_len F) = canonical_length 4
    /\ Format.rec_len F = sum_byte_lengths (Format.specs F).
Proof. apply (C1_record_length 4 false); lia. Defined.

(** *** Bit fields *)

Lemma bit_fields_all :
  forallb (fun b => (flag_byte_of (flag_fields b) =? b)
                    && (classification_byte_of (classification_fields b) =? b))
          (seqZ 0 256) = true.
Proof. vm_compute. reflexivity. Qed.

(** C3. Every byte is recovered from its four flag sub-fields, extracted by
    shift and mask and put back by shift and OR; and likewise from its four
    classification sub-fields. *)
Theorem C3_bit_fields_roundtrip (b : Z) :
  0 <= b < 256 ->
  flag_byte_of (flag_fields b) = b
  /\ classification_byte_of (classification_fields b) = b.
Proof.
  intros Hb.
  pose proof bit_fields_all as Hall.
  rewrite forallb_forall in Hall.
  assert (Hin : In b (seqZ 0 256)).
  { apply list_elem_of_In, elem_of_seqZ. lia. }
  apply Hall, andb_prop in Hin as [H1 H2].
  apply Z.eqb_eq in H1, H2. split; assumption.
Qed.

Lemma C3_bit_fields_roundtrip_witness :
  flag_byte_of (flag_fields 165) = 165
  /\ classification_byte_of (classification_fields 165) = 165.
Proof. apply (C3_bit_fields_roundtrip 165). lia. Defined.

(** The sub-fields that [make_nice] cuts out of the bit string of a byte are
    those of the extraction rule. *)
Lemma make_nice_slices (b : Z) :
  0 <= b < 256 ->
  (packed_str (Point.slice 0 3 (binary_str b)), packed_str (Point.slice 3 6 (binary_str b)),
   packed_str (Point.slice 6 7 (binary_str b)), packed_str (Point.slice 7 8 (binary_str b)))
    = flag_fields b
  /\ (packed_str (Point.slice 0 5 (binary_str b)), packed_str (Point.slice 5 6 (binary_str b)),
      packed_str (Point.slice 6 7 (binary_str b)), packed_str (Point.slice 7 8 (binary_str b)))
    = classification_fields b.
Proof.
  intros Hb.
  assert (Hall : forallb (fun b =>
            (packed_str (Point.slice 0 3 (binary_str b)) =? extract b 0 3)
            && (packed_str (Point.slice 3 6 (binary_str b)) =? extract b 3 3)
            && (packed_str (Point.slice 6 7 (binary_str b)) =? extract b 6 1)
            && (packed_str (Point.slice 7 8 (binary_str b)) =? extract b 7 1)
            && (packed_str (Point.slice 0 5 (binary_str b)) =? extract b 0 5)
            && (packed_str (Point.slice 5 6 (binary_str b)) =? extract b 5 1))
          (seqZ 0 256) = true) by (vm_compute; reflexivity).
  rewrite forallb_forall in Hall.
  assert (Hin : In b (seqZ 0 256)).
  { apply list_elem_of_In, elem_of_seqZ. lia. }
  apply Hall in Hin.
  repeat (apply andb_prop in Hin as [Hin ?]).
  repeat match goal with H : (_ =? _) = true |- _ => apply Z.eqb_eq in H end.
  unfold flag_fields, classification_fields. split; congruence.
Qed.

(** *** Field arity *)

Lemma LEfmt_tables (fmt : ctype) (code : string) :
  LEfmt fmt = Ok code ->
  exists len np dflt c,
    dict_get fmtLen code = Ok len /\ dict_get npFmt code = Ok np
    /\ dict_get defaults code = Ok dflt /\ Format.char1 code = Ok c
    /\ 0 < len.
Proof.
  destruct fmt; simpl; intros [= <-];
    do 4 eexists; repeat split; vm_compute; reflexivity.
Qed.

Lemma Spec_init_little_endian name offs fmt code num pack overwritable idx :
  LEfmt fmt = Ok code ->
  exists sp,
    Spec.init name offs fmt num pack true overwritable idx = Ok sp
    /\ Spec.name sp = name /\ Spec.offs sp = offs /\ Spec.num sp = num
    /\ Spec.fmt sp = code /\ dict_get fmtLen code = Ok (Spec.length sp)
    /\ 0 < Spec.length sp.
Proof.
  intros Hc.
  destruct (LEfmt_tables fmt code Hc) as (len & np & dflt & c & H1 & H2 & H3 & _ & Hlen).
  unfold Spec.init. rewrite Hc. simpl. rewrite H1. simpl. rewrite H2. simpl.
  rewrite H3. simpl. eexists. split; [reflexivity|]. simpl. auto 10.
Qed.

(** C9 (as stated, refuted). A field spec with count zero is constructed:
    the constructor has no check of the count. *)
Lemma C9_zero_count_accepted :
  (exists sp, Spec.init "X" 0 c_long 0 false true true 0 = Ok sp /\ Spec.num sp = 0)
  /\ ~ arity_checked.
Proof.
  assert (H : exists sp, Spec.init "X" 0 c_long 0 false true true 0 = Ok sp /\ Spec.num sp = 0).
  { destruct (Spec_init_little_endian "X" 0 c_long "<L" 0 false true 0 eq_refl)
      as (sp & E & _ & _ & Hn & _).
    exists sp. split; assumption. }
  split; [exact H|].
  intros Hclaim. destruct H as (sp & E & _).
  destruct (Hclaim "X" 0 c_long 0 false true 0 ltac:(lia)) as [e He].
  rewrite E in He. discriminate.
Qed.

(** C9 (amended). For every name, offset and element type of the [LEfmt]
    table, a little-endian field spec with a zero or negative count is
    constructed without error; it keeps the count it was given, so that its
    byte length is not positive. *)
Theorem C9_count_not_checked name offs fmt num pack overwritable idx :
  num <= 0 ->
  is_ok (LEfmt fmt) = true ->
  exists sp,
    Spec.init name offs fmt num pack true overwritable idx = Ok sp
    /\ Spec.name sp = name /\ Spec.offs sp = offs /\ Spec.num sp = num
    /\ Spec.num sp * Spec.length sp <= 0.
Proof.
  intros Hnum Hfmt.
  destruct (LEfmt fmt) as [code|] eqn:Hc; [|discriminate].
  destruct (Spec_init_little_endian name offs fmt code num pack overwritable idx Hc)
    as (sp & E & Hn & Ho & Hm & _ & _ & Hlen).
  exists sp. repeat split; try assumption. rewrite Hm. nia.
Qed.

Lemma C9_count_not_checked_witness :
  exists sp,
    Spec.init "user_id" 2 c_char (-16) false true true 1 = Ok sp
    /\ Spec.name sp = "user_id" /\ Spec.offs sp = 2 /\ Spec.num sp = -16
    /\ Spec.num sp * Spec.length sp <= 0.
Proof. apply (C9_count_not_checked "user_id" 2 c_char (-16)); [lia | reflexivity]. Defined.

(** *** The header's record length *)

Lemma lenDict_lookup (id : Z) :
  Header.lenDict !! id =
    if (0 <=? id) && (id <=? 5) then nth_error [20; 28; 26; 34; 57; 63] (Z.to_nat id)
    else None.
Proof.
  destruct ((0 <=? id) && (id <=? 5)) eqn:Hr.
  - assert (Hc : id = 0 \/ id = 1 \/ id = 2 \/ id = 3 \/ id = 4 \/ id = 5) by lia.
    repeat (destruct Hc as [-> | Hc]); try subst id; vm_compute; reflexivity.
  - unfold Header.lenDict. simpl.
    rewrite !lookup_insert_ne by lia. apply lookup_empty.
Qed.

(** C6. When the header holds the point format identifier [id] under the
    attribute that the accessor reads, the accessor returns the table value
    for [id] in 0..5 (20, 28, 26, 34, 57, 63) and fails with the key error
    of the table lookup for every other [id]. *)
Theorem C6_data_record_length (h : Header.t) (id : Z) :
  Header.getattr h "PtDatFormatID" = Ok (PInt id) ->
  Header.get_datarecordlength h =
    if (0 <=? id) && (id <=? 5)
    then Ok (nth (Z.to_nat id) [20; 28; 26; 34; 57; 63] 0)
    else Raise KeyError.
Proof.
  intros Hid.
  unfold Header.get_datarecordlength, Header.getint. rewrite Hid. simpl.
  unfold dict_get. rewrite lenDict_lookup.
  destruct ((0 <=? id) && (id <=? 5)) eqn:Hr; [|reflexivity].
  assert (Hc : id = 0 \/ id = 1 \/ id = 2 \/ id = 3 \/ id = 4 \/ id = 5) by lia.
  repeat (destruct Hc as [-> | Hc]); try subst id; reflexivity.
Qed.

Lemma C6_data_record_length_witness :
  Header.get_datarecordlength (header_of [("PtDatFormatID", PInt 3)]) = Ok 34
  /\ Header.get_datarecordlength (header_of [("PtDatFormatID", PInt 6)]) = Raise KeyError.
Proof.
  split.
  - apply (C6_data_record_length (header_of [("PtDatFormatID", PInt 3)]) 3). reflexivity.
  - apply (C6_data_record_length (header_of [("PtDatFormatID", PInt 6)]) 6). reflexivity.
Defined.

(** The accessor [get_dataformatid] reads the attribute [PtDatFormatId],
    spelled differently: a header that holds the identifier under that name
    only answers [get_dataformatid] and not [get_datarecordlength]. *)
Lemma dataformatid_attribute_names :
  let h := header_of [("PtDatFormatId", PInt 1)] in
  Header.get_dataformatid h = Ok (PInt 1)
  /\ Header.get_datarecordlength h = Raise (AttributeError "PtDatFormatID").
Proof. split; reflexivity. Qed.

(** *** Strings *)

Lemma all_chars_impl (P Q : ascii -> bool) (s : string) :
  (forall c, P c = true -> Q c = true) -> all_chars P s = true -> all_chars Q s = true.
Proof.
  intros HPQ. induction s as [|c s IH]; [reflexivity|]. cbn [all_chars].
  intros [Hc Hs]%andb_prop. now rewrite (HPQ c Hc), IH.
Qed.

Lemma rev_app_rev_app (a b c : string) :
  String.rev_app (String.rev_app a b) c = String.rev_app b (a +:+ c).
Proof.
  revert b. induction a as [|x a IH]; intros b; [reflexivity|].
  cbn [String.rev_app]. rewrite IH. reflexivity.
Qed.

Lemma append_empty_r (s : string) : s +:+ "" = s.
Proof.
  induction s as [|c s IH]; [reflexivity|].
  change (String c s +:+ "") with (String c (s +:+ "")). now rewrite IH.
Qed.

Lemma rev_rev (s : string) : String.rev (String.rev s) = s.
Proof.
  unfold String.rev. rewrite rev_app_rev_app. cbn [String.rev_app].
  apply append_empty_r.
Qed.

Lemma all_chars_rev_app (P : ascii -> bool) (s t : string) :
  all_chars P s = true -> all_chars P t = true -> all_chars P (String.rev_app s t) = true.
Proof.
  revert t. induction s as [|c s IH]; intros t Hs Ht; [exact Ht|].
  cbn [all_chars] in Hs. apply andb_prop in Hs as [Hc Hs].
  cbn [String.rev_app]. apply IH; [exact Hs|]. cbn [all_chars]. now rewrite Hc, Ht.
Qed.

Lemma lstrip_no_blank (s : string) :
  all_chars (fun c => negb (is_space c)) s = true -> lstrip s = s.
Proof.
  destruct s as [|c s]; [reflexivity|]. cbn [all_chars lstrip].
  intros [Hc _]%andb_prop. apply negb_true_iff in Hc. now rewrite Hc.
Qed.

Lemma strip_no_blank (s : string) :
  all_chars (fun c => negb (is_space c)) s = true -> strip s = s.
Proof.
  intros Hs. unfold strip. rewrite (lstrip_no_blank s Hs).
  rewrite lstrip_no_blank; [apply rev_rev|].
  unfold String.rev. now apply all_chars_rev_app.
Qed.

Lemma split_at_separator (sep : ascii) (a b : string) :
  all_chars (fun c => negb (Ascii.eqb c sep)) a = true ->
  split sep (a +:+ String sep b) = a :: split sep b.
Proof.
  induction a as [|c a IH]; intros Ha.
  - change ("" +:+ String sep b) with (String sep b). cbn [split].
    now rewrite Ascii.eqb_refl.
  - cbn [all_chars] in Ha. apply andb_prop in Ha as [Hc Ha].
    apply negb_true_iff in Hc.
    change (String c a +:+ String sep b) with (String c (a +:+ String sep b)).
    cbn [split]. rewrite Hc, (IH Ha). reflexivity.
Qed.

Lemma split_without_separator (sep : ascii) (b : string) :
  all_chars (fun c => negb (Ascii.eqb c sep)) b = true -> split sep b = [b].
Proof.
  induction b as [|c b IH]; intros Hb; [reflexivity|].
  cbn [all_chars] in Hb. apply andb_prop in Hb as [Hc Hb].
  apply negb_true_iff in Hc. cbn [split]. rewrite Hc, (IH Hb). reflexivity.
Qed.

Lemma digit_is_plain (c : ascii) : is_digit c = true -> plain "." c = true.
Proof.
  unfold is_digit, digit_of, plain, is_space.
  destruct ((48 <=? Z.of_N (N_of_ascii c)) && (Z.of_N (N_of_ascii c) <=? 57)) eqn:Hr;
    [intros _ | discriminate].
  assert (Hne : Ascii.eqb c "." = false).
  { apply Ascii.eqb_neq. intros ->. vm_compute in Hr. discriminate Hr. }
  rewrite Hne. apply andb_prop in Hr as [Hlo Hhi].
  apply Z.leb_le in Hlo. apply Z.leb_le in Hhi.
  destruct ((9 <=? N_of_ascii c)%N && (N_of_ascii c <=? 13)%N) eqn:H1.
  { apply andb_prop in H1 as [_ H1]. apply N.leb_le in H1. lia. }
  destruct (N_of_ascii c =? 32)%N eqn:H2; [|reflexivity].
  apply N.eqb_eq in H2. lia.
Qed.

(** *** Write accessors *)





























Lemma Datetime_init_valid (y m d : Z) :
  is_ok (Datetime.init y m d) = true ->
  1 <= y <= 9999 /\ 1 <= m <= 12 /\ 1 <= d <= Datetime.days_in_month y m.
Proof.
  unfold Datetime.init, Datetime.MINYEAR, Datetime.MAXYEAR.
  destruct (negb (Datetime.fits_int y && Datetime.fits_int m && Datetime.fits_int d));
    [discriminate|].
  destruct ((1 <=? y) && (y <=? 9999)) eqn:Hy; [|discriminate].
  destruct ((1 <=? m) && (m <=? 12)) eqn:Hm; [|discriminate].
  destruct ((1 <=? d) && (d <=? Datetime.days_in_month y m)) eqn:Hd; [|discriminate].
  lia.
Qed.

Lemma Datetime_init_jan1 (y : Z) :
  Datetime.init y 1 1 =
    if negb (Datetime.fits_int y) then Raise OverflowError
    else if (1 <=? y) && (y <=? 9999)
    then Ok {| year := y; month := 1; day := 1;
               hour := 0; minute := 0; second := 0; microsecond := 0 |}
    else Raise ValueError.
Proof.
  unfold Datetime.init, Datetime.MINYEAR, Datetime.MAXYEAR.
  change (Datetime.fits_int 1) with true. rewrite !andb_true_r.
  destruct (Datetime.fits_int y); cbn [negb]; [|reflexivity].
  destruct ((1 <=? y) && (y <=? 9999)); reflexivity.
Qed.

Lemma Datetime_init_jan1_valid (y : Z) :
  1 <= y <= 9999 ->
  Datetime.init y 1 1 = Ok {| year := y; month := 1; day := 1;
                             hour := 0; minute := 0; second := 0; microsecond := 0 |}.
Proof.
  intros Hy. rewrite Datetime_init_jan1.
  replace (Datetime.fits_int y) with true
    by (unfold Datetime.fits_int, Datetime.INT_MIN, Datetime.INT_MAX; lia).
  replace ((1 <=? y) && (y <=? 9999)) with true by lia. reflexivity.
Qed.




(** *** The creation date *)

(** The calendar of [datetime]: turning a day number into year, month and
    day and back gives the day number. *)
Lemma month_day_ok (leap : bool) (r : Z) :
  0 <= r < 365 ->
  let '(m, d) := Datetime.month_day leap r in
  default 0 (Datetime.DAYS_BEFORE_MONTH !! Z.to_nat (m - 1)) + (if (2 <? m) && leap then 1 else 0) + d = r + 1.
Proof.
  intros Hr.
  assert (Hall : forallb (fun r => forallb (fun leap =>
     let '(m, d) := Datetime.month_day leap r in
     default 0 (Datetime.DAYS_BEFORE_MONTH !! Z.to_nat (m - 1)) + (if (2 <? m) && leap then 1 else 0) + d =? r + 1) [true; false]) (seqZ 0 365) = true) by (vm_compute; reflexivity).
  rewrite forallb_forall in Hall.
  assert (Hin : In r (seqZ 0 365)) by (apply list_elem_of_In, elem_of_seqZ; lia).
  apply Hall in Hin. simpl in Hin. rewrite andb_true_r in Hin. apply andb_prop in Hin as [H1 H2].
  destruct leap.
  - destruct (Datetime.month_day true r). now apply Z.eqb_eq in H1.
  - destruct (Datetime.month_day false r). now apply Z.eqb_eq in H2.
Qed.

Lemma ymd2ord_ord2ymd (n : Z) :
  1 <= n ->
  let '(y, m, d) := Datetime.ord2ymd n in Datetime.ymd2ord y m d = n.
Proof.
  intros Hn. unfold Datetime.ord2ymd.
  set (n0 := n - 1).
  set (n400 := n0 / 146097). set (r400 := n0 mod 146097).
  set (n100 := r400 / 36524). set (r100 := r400 mod 36524).
  set (n4 := r100 / 1461). set (r4 := r100 mod 1461).
  set (n1 := r4 / 365). set (r := r4 mod 365).
  assert (E400 : n0 = 146097 * n400 + r400 /\ 0 <= r400 < 146097).
  { unfold n400, r400. pose proof (Z.div_mod n0 146097 ltac:(lia)).
    pose proof (Z.mod_pos_bound n0 146097 ltac:(lia)). lia. }
  assert (E100 : r400 = 36524 * n100 + r100 /\ 0 <= r100 < 36524).
  { unfold n100, r100. pose proof (Z.div_mod r400 36524 ltac:(lia)).
    pose proof (Z.mod_pos_bound r400 36524 ltac:(lia)). lia. }
  assert (E4 : r100 = 1461 * n4 + r4 /\ 0 <= r4 < 1461).
  { unfold n4, r4. pose proof (Z.div_mod r100 1461 ltac:(lia)).
    pose proof (Z.mod_pos_bound r100 1461 ltac:(lia)). lia. }
  assert (E1 : r4 = 365 * n1 + r /\ 0 <= r < 365).
  { unfold n1, r. pose proof (Z.div_mod r4 365 ltac:(lia)).
    pose proof (Z.mod_pos_bound r4 365 ltac:(lia)). lia. }
  clearbody n400 r400 n100 r100 n4 r4 n1 r.
  assert (B400 : 0 <= n400) by lia.
  assert (B100 : 0 <= n100 <= 4) by lia.
  assert (B4 : 0 <= n4 <= 24) by lia.
  assert (B1 : 0 <= n1 <= 4) by lia.
  destruct ((n1 =? 4) || (n100 =? 4)) eqn:Hsp.
  - set (y := n400 * 400 + 1 + n100 * 100 + n4 * 4 + n1 - 1).
    assert (Hy : exists q, y = 4 * q /\ (n100 = 4 /\ y = 400 * (n400 + 1)
                                        \/ n100 <= 3 /\ n1 = 4 /\ n4 <= 23)).
    { apply orb_true_iff in Hsp as [H|H]; apply Z.eqb_eq in H.
      - exists (100 * n400 + 25 * n100 + n4 + 1). unfold y. lia.
      - exists (100 * (n400 + 1)). unfold y. lia. }
    destruct Hy as (q & Hq & Hcase).
    assert (Hleap : Datetime.is_leap y = true).
    { unfold Datetime.is_leap.
      assert (H4 : y mod 4 = 0) by (subst y; rewrite Hq, Z.mul_comm; apply Z.mod_mul; lia).
      rewrite H4. simpl.
      destruct Hcase as [[_ Hc] | (Hc1 & Hc2 & Hc3)].
      - assert (H400 : y mod 400 = 0) by (rewrite Hc, Z.mul_comm; apply Z.mod_mul; lia).
        rewrite H400. apply orb_true_r.
      - assert (H100 : y mod 100 <> 0).
        { unfold y. Z.div_mod_to_equations. lia. }
        apply Z.eqb_neq in H100. rewrite H100. reflexivity. }
    unfold Datetime.ymd2ord, Datetime.days_before_month. rewrite Hleap.
    change (default 0 (Datetime.DAYS_BEFORE_MONTH !! Z.to_nat (12 - 1))) with 334.
    change ((2 <? 12) && true) with true. cbv iota.
    assert (Ey : y = n400 * 400 + n100 * 100 + n4 * 4 + n1) by (unfold y; lia).
    assert (En : n0 = n - 1) by reflexivity.
    unfold Datetime.days_before_year. clearbody y n0.
    Z.div_mod_to_equations; lia.
  - pose proof (month_day_ok ((n1 =? 3) && (negb (n4 =? 24) || (n100 =? 3))) r ltac:(lia)) as Hmd.
    destruct (Datetime.month_day _ r) as [m d].
    unfold Datetime.ymd2ord, Datetime.days_before_month.
    assert (Hleap : Datetime.is_leap (n400 * 400 + 1 + n100 * 100 + n4 * 4 + n1) = (n1 =? 3) && (negb (n4 =? 24) || (n100 =? 3))).
    { unfold Datetime.is_leap. Z.div_mod_to_equations. lia. }
    rewrite Hleap.
    assert (Hdby : Datetime.days_before_year (n400 * 400 + 1 + n100 * 100 + n4 * 4 + n1) = n0 - r).
    { unfold Datetime.days_before_year. Z.div_mod_to_equations; lia. }
    assert (En : n0 = n - 1) by reflexivity.
    lia.
Qed.

Lemma leap_year_century (y : Z) : leap_year y = (y mod 100 =? 0).
Proof.
  unfold leap_year.
  destruct (y mod 400 =? 0) eqn:H400.
  - apply Z.eqb_eq in H400. symmetry. apply Z.eqb_eq.
    Z.div_mod_to_equations. lia.
  - destruct (y mod 100 =? 0); [reflexivity|].
    destruct (y mod 4 =? 0); reflexivity.
Qed.

Lemma ymd2ord_jan1_bounds (y : Z) :
  1 <= y <= 9999 -> 1 <= Datetime.ymd2ord y 1 1 <= 3651695.
Proof.
  intros Hy. unfold Datetime.ymd2ord, Datetime.days_before_year, Datetime.days_before_month.
  simpl. Z.div_mod_to_equations. lia.
Qed.

Lemma jan1_add (y k : Z) :
  1 <= y <= 9999 ->
  (let* delta := Datetime.timedelta_days k in
   let* date := Datetime.add {| year := y; month := 1; day := 1;
                                hour := 0; minute := 0; second := 0; microsecond := 0 |}
                             delta in
   Ok (Some date))
  = jan1_plus y k.
Proof.
  intros Hy. unfold Datetime.timedelta_days.
  destruct (Z.abs k <=? 999999999) eqn:Hk.
  2:{ pose proof (ymd2ord_jan1_bounds y Hy) as Hb.
      unfold jan1_plus, Datetime.MAXORDINAL.
      destruct ((0 <? Datetime.ymd2ord y 1 1 + k)
                && (Datetime.ymd2ord y 1 1 + k <=? 3652059)) eqn:E; [lia | reflexivity]. }
  unfold bind at 1. unfold Datetime.add, jan1_plus, Datetime.toordinal.
  cbn [year month day hour minute second microsecond
       Datetime.days Datetime.seconds Datetime.microseconds].
  change (0 * 3600 + 0 * 60 + 0 + 0 + (0 + 0) `div` 1000000) with 0.
  change (0 `div` 86400) with 0. change (0 `mod` 86400) with 0.
  change ((0 + 0) `mod` 1000000) with 0.
  change (0 `div` 3600) with 0. change (0 `mod` 3600) with 0.
  change (0 `div` 60) with 0. change (0 `mod` 60) with 0.
  rewrite Z.add_0_r.
  destruct ((0 <? Datetime.ymd2ord y 1 1 + k)
            && (Datetime.ymd2ord y 1 1 + k <=? Datetime.MAXORDINAL)); [|reflexivity].
  unfold date_of_ordinal.
  destruct (Datetime.ord2ymd (Datetime.ymd2ord y 1 1 + k)) as [[yy mm] dd]. reflexivity.
Qed.

Lemma jan1_plus_ordinal (y k : Z) (dt : datetime) :
  jan1_plus y k = Ok (Some dt) ->
  Datetime.toordinal dt = Datetime.ymd2ord y 1 1 + k
  /\ (hour dt, minute dt, second dt, microsecond dt) = (0, 0, 0, 0).
Proof.
  unfold jan1_plus.
  destruct ((0 <? Datetime.ymd2ord y 1 1 + k)
            && (Datetime.ymd2ord y 1 1 + k <=? Datetime.MAXORDINAL)) eqn:Hr;
    [|discriminate].
  intros [= <-]. unfold date_of_ordinal, Datetime.toordinal.
  pose proof (ymd2ord_ord2ymd (Datetime.ymd2ord y 1 1 + k) ltac:(lia)) as Hinv.
  destruct (Datetime.ord2ymd (Datetime.ymd2ord y 1 1 + k)) as [[yy mm] dd].
  split; [exact Hinv | reflexivity].
Qed.

(** C5 (as stated, refuted). With year 0 and day 1 the accessor raises
    instead of returning a date: the calendar of [datetime] starts at
    year 1. *)
Lemma C5_year_zero_raises :
  Header.get_date (header_of [("CreatedYear", PInt 0); ("CreatedDay", PInt 1)])
    = Raise ValueError
  /\ ~ date_always_returned.
Proof.
  split; [reflexivity|].
  intros Hclaim.
  destruct (Hclaim (header_of [("CreatedYear", PInt 0); ("CreatedDay", PInt 1)]) 0 1
              eq_refl eq_refl ltac:(lia) ltac:(lia)) as [[_ H] | [dt H]]; discriminate H.
Qed.

(** C5 (amended). With year and day both zero the accessor returns no
    date.  Otherwise a year that does not fit a C [int] raises
    [OverflowError] and any other year outside 1..9999 raises [ValueError];
    for a year from 1 to 9999 the accessor returns the first of January of
    that year plus [day] days, or plus [day - 1] days when the year is a leap
    year for [leap_year], at midnight, provided that this day lies between
    0001-01-01 and 9999-12-31, and raises [OverflowError] when it does not.
    The predicate [leap_year] holds exactly for the multiples of 100, so a
    year divisible by 4 only is not leap; year 2008 with day 79 gives
    2008-03-20. *)
Theorem C5_created_date (h : Header.t) (y d : Z) :
  Header.getattr h "CreatedYear" = Ok (PInt y) ->
  Header.getattr h "CreatedDay" = Ok (PInt d) ->
  Header.get_date h =
    (if (y =? 0) && (d =? 0) then Ok None
     else if negb (Datetime.fits_int y) then Raise OverflowError
     else if (1 <=? y) && (y <=? 9999)
          then jan1_plus y (if leap_year y then d - 1 else d)
          else Raise ValueError)
  /\ (forall dt, Header.get_date h = Ok (Some dt) ->
       1 <= y <= 9999
       /\ Datetime.toordinal dt
          = Datetime.ymd2ord y 1 1 + (if leap_year y then d - 1 else d)
       /\ 1 <= Datetime.toordinal dt <= Datetime.MAXORDINAL
       /\ (hour dt, minute dt, second dt, microsecond dt) = (0, 0, 0, 0))
  /\ leap_year y = (y mod 100 =? 0)
  /\ leap_year 2008 = false
  /\ jan1_plus 2008 79
     = Ok (Some {| year := 2008; month := 3; day := 20;
                   hour := 0; minute := 0; second := 0; microsecond := 0 |}).
Proof.
  intros Hy Hd.
  assert (Hget : Header.get_date h =
    (if (y =? 0) && (d =? 0) then Ok None
     else if negb (Datetime.fits_int y) then Raise OverflowError
     else if (1 <=? y) && (y <=? 9999)
          then jan1_plus y (if leap_year y then d - 1 else d)
          else Raise ValueError)).
  { unfold Header.get_date, Header.getint. rewrite Hd, Hy. simpl.
    destruct ((y =? 0) && (d =? 0)); [reflexivity|].
    rewrite Datetime_init_jan1.
    destruct (negb (Datetime.fits_int y)); [destruct (leap_year y); reflexivity|].
    destruct ((1 <=? y) && (y <=? 9999)) eqn:Hyr.
    - assert (Hy' : 1 <= y <= 9999) by lia.
      destruct (leap_year y); simpl; apply (jan1_add y _ Hy').
    - destruct (leap_year y); reflexivity. }
  split; [exact Hget|].
  split; [|split; [apply leap_year_century | split; reflexivity]].
  intros dt Hdt. rewrite Hget in Hdt.
  destruct ((y =? 0) && (d =? 0)); [discriminate|].
  destruct (negb (Datetime.fits_int y)); [discriminate|].
  destruct ((1 <=? y) && (y <=? 9999)) eqn:Hyr; [|discriminate].
  split; [lia|].
  pose proof Hdt as Hrange. unfold jan1_plus in Hrange.
  destruct ((0 <? _) && (_ <=? Datetime.MAXORDINAL)) eqn:Hr in Hrange; [|discriminate].
  apply jan1_plus_ordinal in Hdt as [Hord Htime].
  split; [exact Hord|]. split; [lia | exact Htime].
Qed.

Lemma C5_created_date_witness :
  Header.get_date (header_of [("CreatedYear", PInt 2008); ("CreatedDay", PInt 79)]) =
    (if (2008 =? 0) && (79 =? 0) then Ok None
     else if negb (Datetime.fits_int 2008) then Raise OverflowError
     else if (1 <=? 2008) && (2008 <=? 9999)
          then jan1_plus 2008 (if leap_year 2008 then 79 - 1 else 79)
          else Raise ValueError)
  /\ (forall dt,
        Header.get_date (header_of [("CreatedYear", PInt 2008); ("CreatedDay", PInt 79)])
          = Ok (Some dt) ->
        1 <= 2008 <= 9999
        /\ Datetime.toordinal dt
           = Datetime.ymd2ord 2008 1 1 + (if leap_year 2008 then 79 - 1 else 79)
        /\ 1 <= Datetime.toordinal dt <= Datetime.MAXORDINAL
        /\ (hour dt, minute dt, second dt, microsecond dt) = (0, 0, 0, 0))
  /\ leap_year 2008 = (2008 mod 100 =? 0)
  /\ leap_year 2008 = false
  /\ jan1_plus 2008 79
     = Ok (Some {| year := 2008; month := 3; day := 20;
                   hour := 0; minute := 0; second := 0; microsecond := 0 |}).
Proof.
  apply (C5_created_date
           (header_of [("CreatedYear", PInt 2008); ("CreatedDay", PInt 79)]) 2008 79);
    reflexivity.
Defined.

(** *** Offsets *)

Lemma layout_inv_empty (fmt : string) : layout_inv (Format.init_empty fmt).
Proof.
  repeat split; simpl; try discriminate; try constructor.
Qed.

Lemma offsets_chained_snoc (specs : list Spec.t) (sp : Spec.t) :
  offsets_chained specs ->
  Forall spec_sound specs ->
  match last specs with
  | None => Spec.offs sp = 0
  | Some prev => Spec.offs sp = Spec.offs prev + Spec.num prev * Spec.length prev
  end ->
  offsets_chained (specs ++ [sp]).
Proof.
  intros [Hfirst Hstep] Hsound Hoffs. split.
  - intros x Hx. apply lookup_snoc_Some in Hx as [[_ Hx] | [Hlen <-]].
    + now apply Hfirst.
    + destruct specs; [exact Hoffs | discriminate].
  - intros i a b Ha Hb.
    apply lookup_snoc_Some in Hb as [[Hi Hb] | [Hi <-]].
    + apply lookup_snoc_Some in Ha as [[_ Ha] | [Hi' _]]; [|lia].
      now apply (Hstep i).
    + apply lookup_snoc_Some in Ha as [[_ Ha] | [Hi' _]]; [|lia].
      assert (Hlast : last specs = Some a).
      { rewrite last_lookup, <- Hi. exact Ha. }
      rewrite Hlast in Hoffs.
      assert (Ha' : spec_sound a).
      { rewrite Forall_forall in Hsound. apply Hsound.
        apply list_elem_of_lookup. eauto. }
      destruct Ha' as (_ & Hl & Hn). split; [exact Hoffs | nia].
Qed.

Lemma add_preserves name fmt num pack overwritable :
  0 < num -> preserves (Format.add name fmt num pack overwritable).
Proof.
  intros Hnum self self' H (Hch & Hsound & Hlen).
  unfold Format.add in H.
  apply bind_Ok in H as (offs & Hoffs & H).
  apply bind_Ok in H as (code & Hcode & H).
  apply bind_Ok in H as (len & Hl & H).
  apply bind_Ok in H as (sp & Hsp & H).
  apply bind_Ok in H as (c & _ & H).
  injection H as <-.
  destruct (Spec_init_little_endian name offs fmt code num pack overwritable
              (Z.of_nat (List.length (Format.specs self))) Hcode)
    as (sp' & E & _ & Ho & Hn & Hf & Hl' & Hpos).
  rewrite E in Hsp. injection Hsp as ->.
  assert (len = Spec.length sp) by congruence. subst len.
  assert (Hs : spec_sound sp).
  { repeat split; [congruence | assumption | lia]. }
  unfold layout_inv. simpl. split; [|split].
  - apply offsets_chained_snoc; try assumption.
    destruct (last (Format.specs self)) as [prev|] eqn:Hlast.
    + apply bind_Ok in Hoffs as (plen & Hplen & Hoffs). injection Hoffs as <-.
      assert (Hp : spec_sound prev).
      { rewrite Forall_forall in Hsound. apply Hsound.
        apply last_Some in Hlast as [l' ->]. set_solver. }
      destruct Hp as (Hp & _). rewrite Hp in Hplen. injection Hplen as <-.
      exact Ho.
    + injection Hoffs as <-. exact Ho.
  - apply Forall_app. split; [assumption | now apply Forall_singleton].
  - unfold sum_byte_lengths in *. rewrite fold_left_app. simpl.
    rewrite <- Hlen, Hn. reflexivity.
Qed.

Lemma block_preserves (steps : list (Format.t -> result Format.t)) :
  Forall preserves steps -> preserves (Format.block steps).
Proof.
  induction 1 as [|step steps Hstep _ IH]; intros self self' H Hinv; simpl in H.
  - now injection H as <-.
  - apply bind_Ok in H as (mid & Hmid & H).
    apply (IH mid self' H). now apply (Hstep self mid).
Qed.

Lemma layout_inv_set_format_type (ft : string) (self : Format.t) :
  layout_inv self -> layout_inv (Format.set_format_type ft self).
Proof. intros H. exact H. Qed.

Ltac solve_steps :=
  unfold Format.add';
  repeat (apply List.Forall_cons; [apply add_preserves; lia|]);
  apply List.Forall_nil.

Ltac solve_stage H :=
  repeat match type of H with
         | (if ?c then _ else _) = Ok _ => destruct c
         end;
  lazymatch type of H with
  | Ok _ = Ok _ => injection H as <-; assumption
  | Format.block _ _ = Ok _ =>
      eapply block_preserves; [| exact H |];
      [solve_steps | first [assumption | apply layout_inv_set_format_type; assumption]]
  | Format.add _ _ _ _ _ _ = Ok _ =>
      eapply add_preserves; [| exact H | assumption]; lia
  end.

(** Every schema that the constructor returns satisfies the layout
    invariant, whatever the identifier. *)
Lemma init_layout (fmt : string) (overwritable : bool) (F : Format.t) :
  Format.init fmt overwritable = Ok F -> layout_inv F.
Proof.
  unfold Format.init. intros H.
  destruct (negb _); [discriminate|].
  pose proof (layout_inv_empty fmt) as H0.
  apply bind_Ok in H as (s1 & H1 & H).
  assert (I1 : layout_inv s1) by solve_stage H1.
  apply bind_Ok in H as (s2 & H2 & H).
  assert (I2 : layout_inv s2) by (unfold Format.add' in H2; solve_stage H2).
  apply bind_Ok in H as (s3 & H3 & H).
  assert (I3 : layout_inv s3) by solve_stage H3.
  apply bind_Ok in H as (s4 & H4 & H).
  assert (I4 : layout_inv s4) by solve_stage H4.
  apply bind_Ok in H as (s5 & H5 & H).
  assert (I5 : layout_inv s5) by solve_stage H5.
  apply bind_Ok in H as (fmt0 & _ & H).
  apply bind_Ok in H as (s6 & H6 & H).
  assert (I6 : layout_inv s6).
  { destruct (Ascii.eqb fmt0 "h"); [|injection H6 as <-; assumption].
    apply bind_Ok in H6 as (s5' & H5' & H6).
    assert (I5' : layout_inv s5') by solve_stage H5'.
    solve_stage H6. }
  apply bind_Ok in H as (packer & _ & H).
  injection H as <-. exact I6.
Qed.

(** The constructor accepts exactly the identifiers of the registry. *)
Lemma init_identifier (fmt : string) (overwritable : bool) (F : Format.t) :
  Format.init fmt overwritable = Ok F -> In fmt identifiers.
Proof.
  unfold Format.init. intros H.
  destruct (Format.str_in fmt _) eqn:Hin; [|discriminate].
  now apply str_in_cases in Hin.
Qed.

Lemma init_succeeds_all :
  forallb (fun id => is_ok (Format.init id false) && is_ok (Format.init id true))
          identifiers = true.
Proof. vm_compute. reflexivity. Qed.

Lemma init_succeeds (fmt : string) (overwritable : bool) :
  In fmt identifiers -> exists F, Format.init fmt overwritable = Ok F.
Proof.
  intros Hin. pose proof init_succeeds_all as Hall.
  rewrite forallb_forall in Hall. apply Hall, andb_prop in Hin as [Hf Ht].
  destruct overwritable;
    [destruct (Format.init fmt true) | destruct (Format.init fmt false)];
    try discriminate; eauto.
Qed.

Lemma init_field_counts :
  forallb (fun id =>
             match Format.init id false, Format.init id true with
             | Ok F, Ok F' =>
                 (List.length (Format.specs F) =? field_count id)%nat
                 && (List.length (Format.specs F') =? field_count id)%nat
             | _, _ => false
             end) identifiers = true.
Proof. vm_compute. reflexivity. Qed.

(** C4. For each of the eleven identifiers the schema is built and has
    the fields of its kind (nine to twenty for a point format, five for the
    VLR, thirty-two for a header), so it has a first field; the first field
    has offset 0, and every later field starts where the previous one ends:
    its offset is the previous offset plus the previous element size times
    element count, and is strictly larger. *)
Theorem C4_offsets_chained (fmt : string) (overwritable : bool) :
  In fmt identifiers ->
  exists F,
    Format.init fmt overwritable = Ok F
    /\ List.length (Format.specs F) = field_count fmt
    /\ (5 <= field_count fmt)%nat
    /\ (exists first, Format.specs F !! 0%nat = Some first /\ Spec.offs first = 0)
    /\ (forall (i : nat) (b : Spec.t),
          Format.specs F !! S i = Some b ->
          exists a,
            Format.specs F !! i = Some a
            /\ Spec.offs b = Spec.offs a + Spec.num a * Spec.length a
            /\ Spec.offs a < Spec.offs b).
Proof.
  intros Hin.
  destruct (init_succeeds fmt overwritable Hin) as [F HF].
  exists F. split; [exact HF|].
  destruct (init_layout fmt overwritable F HF) as ((Hfirst & Hnext) & _).
  assert (Hlen : List.length (Format.specs F) = field_count fmt).
  { pose proof init_field_counts as Hall. rewrite forallb_forall in Hall.
    specialize (Hall fmt Hin).
    destruct (Format.init fmt false) as [F0|] eqn:E0; [|discriminate].
    destruct (Format.init fmt true) as [F1|] eqn:E1; [|discriminate].
    apply andb_prop in Hall as [H0 H1].
    apply Nat.eqb_eq in H0. apply Nat.eqb_eq in H1.
    destruct overwritable; congruence. }
  assert (Hmin : (5 <= field_count fmt)%nat).
  { unfold identifiers in Hin. cbn [In] in Hin.
    repeat (destruct Hin as [<- | Hin]; [vm_compute; lia|]). destruct Hin. }
  split; [exact Hlen|]. split; [exact Hmin|]. split.
  - destruct (Format.specs F !! 0%nat) as [first|] eqn:E.
    + exists first. split; [reflexivity | now apply Hfirst].
    + apply lookup_ge_None in E. lia.
  - intros i b Hb.
    destruct (Format.specs F !! i) as [a|] eqn:Ha.
    + exists a. split; [reflexivity|]. exact (Hnext i a b Ha Hb).
    + apply lookup_ge_None in Ha. apply lookup_lt_Some in Hb. lia.
Qed.

Lemma C4_offsets_chained_witness :
  exists F,
    Format.init "h1.3" false = Ok F
    /\ List.length (Format.specs F) = field_count "h1.3"
    /\ (5 <= field_count "h1.3")%nat
    /\ (exists first, Format.specs F !! 0%nat = Some first /\ Spec.offs first = 0)
    /\ (forall (i : nat) (b : Spec.t),
          Format.specs F !! S i = Some b ->
          exists a,
            Format.specs F !! i = Some a
            /\ Spec.offs b = Spec.offs a + Spec.num a * Spec.length a
            /\ Spec.offs a < Spec.offs b).
Proof. apply (C4_offsets_chained "h1.3" false). simpl. tauto. Defined.

(** *** The struct codec *)

Lemma Z_of_byte_range (b : byte) : 0 <= Struct.Z_of_byte b < 256.
Proof.
  unfold Struct.Z_of_byte. pose proof (Byte.to_N_bounded b). lia.
Qed.


Lemma byte_of_Z_of_byte (b : byte) : Struct.byte_of_Z (Struct.Z_of_byte b) = b.
Proof.
  pose proof (Z_of_byte_range b) as Hb.
  unfold Struct.byte_of_Z. rewrite Z.mod_small by exact Hb.
  unfold Struct.Z_of_byte. rewrite N2Z.id, Byte.of_to_N. reflexivity.
Qed.

Lemma pow_bytes_succ (k : nat) :
  2 ^ (8 * Z.of_nat (S k)) = 256 * 2 ^ (8 * Z.of_nat k).
Proof.
  replace (8 * Z.of_nat (S k)) with (8 + 8 * Z.of_nat k) by lia.
  rewrite Z.pow_add_r by lia. reflexivity.
Qed.


Lemma le_value_range (bs : list byte) :
  0 <= Struct.le_value bs < 2 ^ (8 * Z.of_nat (List.length bs)).
Proof.
  induction bs as [|b bs IH].
  - simpl. lia.
  - cbn [Struct.le_value List.length]. rewrite pow_bytes_succ.
    pose proof (Z_of_byte_range b). lia.
Qed.


Lemma le_bytes_le_value (bs : list byte) :
  Struct.le_bytes (List.length bs) (Struct.le_value bs) = bs.
Proof.
  induction bs as [|b bs IH]; [reflexivity|].
  cbn [Struct.le_value List.length Struct.le_bytes].
  pose proof (Z_of_byte_range b) as Hb.
  assert (Hlow : Struct.byte_of_Z (Struct.Z_of_byte b + 256 * Struct.le_value bs) = b).
  { assert (Hmod : (Struct.Z_of_byte b + 256 * Struct.le_value bs) mod 256
                   = Struct.Z_of_byte b mod 256).
    { rewrite (Z.mul_comm 256), Z.mod_add by lia. reflexivity. }
    unfold Struct.byte_of_Z. rewrite Hmod. apply byte_of_Z_of_byte. }
  assert (Hhigh : (Struct.Z_of_byte b + 256 * Struct.le_value bs) / 256 = Struct.le_value bs).
  { rewrite Z.add_comm, Z.mul_comm, Z.div_add_l by lia.
    rewrite Z.div_small by exact Hb. lia. }
  rewrite Hlow, Hhigh, IH. reflexivity.
Qed.


(** One item: bytes to value and back. *)
Lemma unpack1_pack1 (c : Struct.code) (bs : list byte) :
  List.length bs = Struct.width c ->
  Struct.pack1 c (Struct.unpack1 c bs) = Ok bs.
Proof.
  intros Hlen.
  pose proof (le_value_range bs) as Hr. pose proof (le_bytes_le_value bs) as Hb.
  rewrite Hlen in Hr, Hb.
  assert (Hin : Struct.in_range c (Struct.le_value bs) = true).
  { unfold Struct.in_range. lia. }
  destruct c; unfold Struct.unpack1, Struct.pack1; try (rewrite Hin, Hb; reflexivity).
  destruct bs as [|b [|? ?]]; try discriminate Hlen.
  rewrite byte_of_ascii_of_byte. reflexivity.
Qed.

Lemma calcsize_nonneg (cs : list Struct.code) : 0 <= Struct.calcsize cs.
Proof. induction cs as [|c cs IH]; simpl; lia. Qed.


(** A whole record: bytes to values and back. *)
Lemma unpack_items_pack_items (cs : list Struct.code) (data : list byte) :
  Z.of_nat (List.length data) = Struct.calcsize cs ->
  Struct.pack_items cs (Struct.unpack_items cs data) = Ok data.
Proof.
  revert data. induction cs as [|c cs IH]; intros data Hlen.
  - destruct data; [reflexivity | simpl in Hlen; lia].
  - cbn [Struct.calcsize fold_right] in Hlen. fold (Struct.calcsize cs) in Hlen.
    pose proof (calcsize_nonneg cs) as Hnn.
    cbn [Struct.unpack_items Struct.pack_items].
    rewrite unpack1_pack1 by (rewrite length_take; lia).
    rewrite IH by (rewrite length_drop; lia).
    simpl. rewrite take_drop. reflexivity.
Qed.

(** *** The record codec on the point schemas *)

Lemma packer_covers_point_records :
  forallb (fun id =>
             match Format.init id false, Format.init id true with
             | Ok F, Ok F' => packer_covers_record F && packer_covers_record F'
             | _, _ => false
             end) point_identifiers = true.
Proof. vm_compute. reflexivity. Qed.

Lemma point_schema_packer (id : string) (overwritable : bool) (F : Format.t) :
  In id point_identifiers ->
  Format.init id overwritable = Ok F ->
  exists st,
    Format.packer F = Some st
    /\ Struct.size st = Format.rec_len F
    /\ Struct.size st = Struct.calcsize (Struct.codes st)
    /\ Forall2 (fun sp c => spec_code sp = Some c) (Format.specs F) (Struct.codes st)
    /\ Forall (fun sp => Spec.num sp = 1) (Format.specs F).
Proof.
  intros Hin HF. pose proof packer_covers_point_records as Hall.
  rewrite forallb_forall in Hall. specialize (Hall id Hin).
  assert (Hok : packer_covers_record F = true).
  { destruct (Format.init id false) as [F0|] eqn:E0; [|discriminate].
    destruct (Format.init id true) as [F1|] eqn:E1; [|discriminate].
    apply andb_prop in Hall as [H0 H1].
    destruct overwritable; congruence. }
  unfold packer_covers_record in Hok.
  destruct (Format.packer F) as [st|]; [|discriminate].
  repeat (apply andb_prop in Hok as [Hok ?]).
  exists st. split; [reflexivity|].
  split; [lia|]. split; [lia|]. split.
  - apply mapM_Some. eapply bool_decide_eq_true. eassumption.
  - apply Forall_forall. intros sp Hsp.
    match goal with H : forallb _ _ = true |- _ => rewrite forallb_forall in H;
      apply list_elem_of_In, H in Hsp end. lia.
Qed.



(** On each of the six point schemas, a block of exactly the record length
    is decoded, and encoding the decoded values gives the block back. *)
Lemma point_bytes_roundtrip (id : string) (overwritable : bool) (F : Format.t)
    (data : list byte) :
  In id point_identifiers ->
  Format.init id overwritable = Ok F ->
  Z.of_nat (List.length data) = Format.rec_len F ->
  exists values, decode F data = Ok values /\ encode F values = Ok data.
Proof.
  intros Hin HF Hlen.
  destruct (point_schema_packer id overwritable F Hin HF) as (st & Hp & Hs & Hc & _).
  exists (Struct.unpack_items (Struct.codes st) data).
  unfold encode, decode, Point.init, Point.pack, Struct.pack, Struct.unpack.
  simpl. rewrite Hp. simpl.
  replace (Z.of_nat (List.length data) =? Struct.size st) with true by lia.
  simpl. split; [reflexivity|].
  apply unpack_items_pack_items. lia.
Qed.

(** On each of the six point schemas, a block of any other length, shorter
    ones included, is rejected and no value sequence is produced. *)
Lemma point_wrong_length_rejected (id : string) (overwritable : bool) (F : Format.t)
    (data : list byte) :
  In id point_identifiers ->
  Format.init id overwritable = Ok F ->
  Z.of_nat (List.length data) <> Format.rec_len F ->
  decode F data = Raise StructError.
Proof.
  intros Hin HF Hlen.
  destruct (point_schema_packer id overwritable F Hin HF) as (st & Hp & Hs & _).
  unfold decode, Point.init, Struct.unpack. simpl. rewrite Hp. simpl.
  replace (Z.of_nat (List.length data) =? Struct.size st) with false by lia.
  reflexivity.
Qed.

(** *** The record codec on the VLR schema *)

(** The packer of the VLR schema is built from the format string [<HsHHs],
    one character per field whatever the element count, so it spans 8 bytes
    while the record length is 54; the header schemas span 139 bytes of the
    227 (235 for version 1.3) of their records. *)
Lemma packer_size_without_counts :
  (let* F := Format.init "VLR" false in
   Ok (Format.pt_fmt_long F, option_map Struct.size (Format.packer F), Format.rec_len F))
    = Ok ("<HsHHs", Some 8, 54)
  /\ (let* F := Format.init "h1.2" false in
      Ok (option_map Struct.size (Format.packer F), Format.rec_len F)) = Ok (Some 139, 227)
  /\ (let* F := Format.init "h1.3" false in
      Ok (option_map Struct.size (Format.packer F), Format.rec_len F)) = Ok (Some 139, 235).
Proof. repeat split; vm_compute; reflexivity. Qed.

(** C2 (the code departs from the claim). On the VLR schema the value
    sequence [vlr_values] is well formed, it is encoded without error, and
    decoding the result gives another sequence: the two text fields come
    back cut to their first character. *)
Theorem C2_vlr_values_not_recovered :
  (let* F := Format.init "VLR" false in Ok (well_formed (Format.specs F) vlr_values))
    = Ok true
  /\ (let* F := Format.init "VLR" false in
      let* data := encode F vlr_values in
      decode F data)
     = Ok [PInt 1; PStr "0"; PInt 34735; PInt 40; PStr "a"]
  /\ [PInt 1; PStr "0"; PInt 34735; PInt 40; PStr "a"] <> vlr_values.
Proof.
  split; [vm_compute; reflexivity|]. split; [vm_compute; reflexivity|].
  unfold vlr_values. intros H. discriminate H.
Qed.

(** C8 (the code departs from the claim). On the VLR schema a block of 8
    bytes, shorter than the record length 54, is decoded without error into
    five values. *)
Theorem C8_vlr_short_block_decoded :
  (let* F := Format.init "VLR" false in
   Ok (Z.of_nat (List.length vlr_block_8) <? Format.rec_len F)) = Ok true
  /\ (let* F := Format.init "VLR" false in decode F vlr_block_8)
     = Ok [PInt 1; PStr "L"; PInt 34671; PInt 40; PStr "G"].
Proof. split; vm_compute; reflexivity. Qed.

(** C10 (the code departs from the claim). On the VLR schema a block of
    exactly the record length, 54 bytes, is rejected by the decoder. *)
Theorem C10_vlr_full_block_rejected :
  (let* F := Format.init "VLR" false in
   Ok (Z.of_nat (List.length vlr_block_54) =? Format.rec_len F)) = Ok true
  /\ (let* F := Format.init "VLR" false in decode F vlr_block_54) = Raise StructError.
Proof. split; vm_compute; reflexivity. Qed.

(** *** Further properties of the record codec on the point schemas *)

Lemma on_schema_Ok {A : Type} (id : string) (overwritable : bool)
    (k : Format.t -> result A) (r : A) :
  on_schema id overwritable k = Ok r ->
  exists F, Format.init id overwritable = Ok F /\ k F = Ok r.
Proof. apply bind_Ok. Qed.

Lemma on_schema_init {A : Type} (id : string) (overwritable : bool)
    (k : Format.t -> result A) (F : Format.t) :
  Format.init id overwritable = Ok F -> on_schema id overwritable k = k F.
Proof. intros HF. unfold on_schema. rewrite HF. reflexivity. Qed.

Lemma fits_all_Forall2 (cs : list Struct.code) (values : list pyval) :
  fits_all cs values = true <-> Forall2 (fun c v => fits c v = true) cs values.
Proof.
  revert values. induction cs as [|c cs IH]; intros [|v values]; simpl.
  - split; [constructor | reflexivity].
  - split; [discriminate | inversion 1].
  - split; [discriminate | inversion 1].
  - rewrite andb_true_iff, IH. split.
    + intros [? ?]. now constructor.
    + inversion 1; subst. now split.
Qed.

(** Without text fields, a value is packed exactly when it fits its format
    character, and the only error is [struct.error]. *)
Lemma pack1_outcome (c : Struct.code) (v : pyval) :
  is_text c = false ->
  match Struct.pack1 c v with
  | Ok _ => fits c v = true
  | Raise e => e = StructError /\ fits c v = false
  end.
Proof.
  intros Hc. destruct c; try discriminate Hc;
    destruct v as [| n | bits | str | l | dt | dt | yy mm dd]; simpl; auto;
    match goal with |- context [Struct.in_range ?c ?n] =>
      destruct (Struct.in_range c n); auto end.
Qed.

Lemma pack_items_outcome (cs : list Struct.code) (values : list pyval) :
  Forall (fun c => is_text c = false) cs ->
  match Struct.pack_items cs values with
  | Ok _ => fits_all cs values = true
  | Raise e => e = StructError /\ fits_all cs values = false
  end.
Proof.
  intros Hcs. revert values.
  induction Hcs as [|c cs Hc _ IH]; intros [|v values]; simpl; auto.
  pose proof (pack1_outcome c v Hc) as H1.
  destruct (Struct.pack1 c v) as [bs|e]; simpl.
  - rewrite H1. simpl. specialize (IH values).
    destruct (Struct.pack_items cs values); simpl; exact IH.
  - destruct H1 as [-> ->]. auto.
Qed.

Lemma well_formed_fits_all (specs : list Spec.t) (cs : list Struct.code)
    (values : list pyval) :
  Forall2 (fun sp c => spec_code sp = Some c) specs cs ->
  Forall (fun sp => Spec.num sp = 1) specs ->
  well_formed specs values = fits_all cs values.
Proof.
  intros Hcodes. revert values.
  induction Hcodes as [|sp c specs cs Hc _ IH]; intros values Hnum.
  - destruct values; reflexivity.
  - destruct values as [|v values]; [reflexivity|].
    inversion Hnum as [|? ? Hn Hnum']; subst.
    cbn [well_formed fits_all]. rewrite (IH values Hnum'). f_equal.
    unfold value_matches. rewrite Hc, Hn.
    destruct c; try reflexivity.
    destruct v as [| | |str| | | |]; try reflexivity.
    destruct str as [|a [|? ?]]; cbn [fits String.length]; try reflexivity.
    apply Z.eqb_neq. lia.
Qed.

Lemma unpack1_fits (c : Struct.code) (bs : list byte) :
  List.length bs = Struct.width c -> fits c (Struct.unpack1 c bs) = true.
Proof.
  intros Hlen. pose proof (le_value_range bs) as Hr. rewrite Hlen in Hr.
  destruct c; simpl; unfold Struct.in_range; try lia.
  destruct bs as [|b [|? ?]]; try discriminate Hlen. reflexivity.
Qed.

Lemma unpack_items_fits_all (cs : list Struct.code) (data : list byte) :
  Z.of_nat (List.length data) = Struct.calcsize cs ->
  fits_all cs (Struct.unpack_items cs data) = true.
Proof.
  revert data. induction cs as [|c cs IH]; intros data Hlen; [reflexivity|].
  cbn [Struct.calcsize fold_right] in Hlen. fold (Struct.calcsize cs) in Hlen.
  pose proof (calcsize_nonneg cs) as Hnn.
  cbn [Struct.unpack_items fits_all].
  rewrite unpack1_fits by (rewrite length_take; lia).
  rewrite IH by (rewrite length_drop; lia). reflexivity.
Qed.

Lemma schemas_pass_at (chk : Format.t -> bool) (ids : list string)
    (id : string) (overwritable : bool) (F : Format.t) :
  schemas_pass chk ids = true ->
  In id ids -> Format.init id overwritable = Ok F -> chk F = true.
Proof.
  unfold schemas_pass. rewrite forallb_forall. intros Hall Hin HF.
  specialize (Hall id Hin).
  destruct (Format.init id false) as [F0|] eqn:E0; [|discriminate].
  destruct (Format.init id true) as [F1|] eqn:E1; [|discriminate].
  apply andb_prop in Hall as [H0 H1].
  destruct overwritable; congruence.
Qed.

Lemma point_packers_without_text :
  schemas_pass packer_without_text point_identifiers = true.
Proof. vm_compute. reflexivity. Qed.

Lemma point_encode_outcome (id : string) (overwritable : bool) (F : Format.t)
    (values : list pyval) :
  In id point_identifiers ->
  Format.init id overwritable = Ok F ->
  encode_outcome_ok F values = true.
Proof.
  intros Hin HF.
  destruct (point_schema_packer id overwritable F Hin HF)
    as (st & Hp & _ & _ & Hcodes & Hnum).
  pose proof (schemas_pass_at _ _ id overwritable F point_packers_without_text Hin HF)
    as Htext.
  unfold packer_without_text in Htext. rewrite Hp in Htext.
  assert (Hcs : Forall (fun c => is_text c = false) (Struct.codes st)).
  { apply Forall_forall. intros c Hc. rewrite forallb_forall in Htext.
    apply list_elem_of_In, Htext in Hc. now destruct (is_text c). }
  pose proof (pack_items_outcome (Struct.codes st) values Hcs) as Hout.
  unfold encode_outcome_ok, encode, Point.init, Point.pack, Struct.pack.
  simpl. rewrite Hp. simpl.
  rewrite (well_formed_fits_all _ _ values Hcodes Hnum).
  destruct (Struct.pack_items (Struct.codes st) values) as [bs|e].
  - exact Hout.
  - destruct Hout as [-> ->]. reflexivity.
Qed.


Lemma registry_integer_fields :
  schemas_pass integer_fields integer_identifiers = true.
Proof. vm_compute. reflexivity. Qed.



(** X2. On the schemas of point formats 0 to 3, whose fields are integers
    and double-precision numbers, a block of exactly the record length is
    unpacked into a well-formed value sequence, and packing that sequence
    gives the block back. *)
Theorem point_unpack_then_pack (id : string) (overwritable : bool) (data : list byte) :
  In id double_identifiers ->
  on_schema id overwritable (fun F =>
      Ok (Z.of_nat (List.length data) =? Format.rec_len F)) = Ok true ->
  on_schema id overwritable (fun F =>
      let* values := decode F data in
      let* again := encode F values in
      Ok (well_formed (Format.specs F) values, again))
    = Ok (true, data).
Proof.
  intros Hin' Hlen.
  assert (Hin : In id point_identifiers).
  { unfold double_identifiers, point_identifiers in *. simpl in *. tauto. }
  apply on_schema_Ok in Hlen as (F & HF & Hlen). injection Hlen as Hlen.
  apply Z.eqb_eq in Hlen.
  rewrite (on_schema_init _ _ _ F HF).
  destruct (point_schema_packer id overwritable F Hin HF)
    as (st & Hp & Hs & Hc & Hcodes & Hnum).
  destruct (point_bytes_roundtrip id overwritable F data Hin HF Hlen)
    as (values & Hd & He).
  rewrite Hd. simpl. rewrite He. simpl. do 2 f_equal.
  unfold decode, Point.init, Struct.unpack in Hd. simpl in Hd. rewrite Hp in Hd.
  simpl in Hd.
  replace (Z.of_nat (List.length data) =? Struct.size st) with true in Hd by lia.
  simpl in Hd. injection Hd as <-.
  rewrite (well_formed_fits_all _ _ _ Hcodes Hnum).
  apply unpack_items_fits_all. lia.
Qed.

Lemma point_unpack_then_pack_witness :
  on_schema "0" false (fun F =>
      let* values := decode F point0_block in
      let* again := encode F values in
      Ok (well_formed (Format.specs F) values, again))
    = Ok (true, point0_block).
Proof.
  apply (point_unpack_then_pack "0" false point0_block);
    [simpl; tauto | vm_compute; reflexivity].
Defined.

(** X3. On the schemas of point formats 0 and 2, all of whose fields are
    integers, packing a value sequence without floats succeeds exactly when
    the sequence is well formed: one integer of the field's unsigned range
    per field.  Otherwise it raises [struct.error] and nothing else; so too
    few or too many values, a value that is no number, and a negative X, Y
    or Z are all rejected. *)
Theorem point_pack_outcome (id : string) (overwritable : bool) (values : list pyval) :
  In id integer_identifiers ->
  no_float values = true ->
  on_schema id overwritable
    (fun F => Ok (integer_fields F, encode_outcome_ok F values)) = Ok (true, true).
Proof.
  intros Hin' _.
  assert (Hin : In id point_identifiers).
  { unfold integer_identifiers, point_identifiers in *. simpl in *. tauto. }
  destruct (init_succeeds id overwritable) as [F HF].
  { unfold point_identifiers, identifiers in *. simpl in *. tauto. }
  rewrite (on_schema_init _ _ _ F HF).
  rewrite (point_encode_outcome id overwritable F values Hin HF).
  rewrite (schemas_pass_at _ _ id overwritable F registry_integer_fields Hin' HF).
  reflexivity.
Qed.

Lemma point_pack_outcome_witness :
  on_schema "0" false (fun F =>
      Ok (integer_fields F,
          encode_outcome_ok F
            [PInt (-1); PInt 200; PInt 300; PInt 7; PInt 165; PInt 2; PInt 0; PInt 9; PInt 1]))
    = Ok (true, true).
Proof.
  apply (point_pack_outcome "0" false); [simpl; tauto | reflexivity].
Defined.

(** X4. On each of the six point schemas, unpacking a byte block succeeds
    exactly when the block has the record length; a block of any other
    length, shorter or longer, raises [struct.error] and nothing else. *)
Theorem point_unpack_outcome (id : string) (overwritable : bool) (data : list byte) :
  In id point_identifiers ->
  on_schema id overwritable (fun F => Ok (decode_outcome_ok F data)) = Ok true.
Proof.
  intros Hin.
  destruct (init_succeeds id overwritable) as [F HF].
  { unfold point_identifiers, identifiers in *. simpl in *. tauto. }
  rewrite (on_schema_init _ _ _ F HF). f_equal.
  unfold decode_outcome_ok.
  destruct (Z.eq_dec (Z.of_nat (List.length data)) (Format.rec_len F)) as [Hlen|Hlen].
  - destruct (point_bytes_roundtrip id overwritable F data Hin HF Hlen) as (v & Hd & _).
    rewrite Hd. now apply Z.eqb_eq.
  - rewrite (point_wrong_length_rejected id overwritable F data Hin HF Hlen).
    apply negb_true_iff. now apply Z.eqb_neq.
Qed.

Lemma point_unpack_outcome_witness :
  on_schema "3" true (fun F => Ok (decode_outcome_ok F point0_block)) = Ok true.
Proof. apply (point_unpack_outcome "3" true). simpl. tauto. Defined.

(** *** The schema registry *)

Section InitInvariant.

(** A property of the schema under construction that the empty schema
    has and that every step of the constructor keeps. *)
Variable P : Format.t -> Prop.
Hypothesis P_format_type : forall ft s, P s -> P (Format.set_format_type ft s).
Hypothesis P_add :
  forall name c num pk ow s s',
    0 < num -> Format.add name c num pk ow s = Ok s' -> P s -> P s'.

Lemma block_keeps (steps : list (Format.t -> result Format.t)) :
  Forall (fun step => forall s s', step s = Ok s' -> P s -> P s') steps ->
  forall s s', Format.block steps s = Ok s' -> P s -> P s'.
Proof.
  induction 1 as [|step steps Hstep _ IH]; intros s s' H Hs; simpl in H.
  - now injection H as <-.
  - apply bind_Ok in H as (mid & Hmid & H).
    apply (IH mid s' H). now apply (Hstep s mid).
Qed.

Ltac keep_steps :=
  unfold Format.add';
  repeat (apply List.Forall_cons;
          [let Hs := fresh in let Hp := fresh in
           intros ? ? Hs Hp; eapply P_add; [| exact Hs | exact Hp]; lia|]);
  apply List.Forall_nil.

Ltac keep_stage H :=
  repeat match type of H with
         | (if ?c then _ else _) = Ok _ => destruct c
         end;
  lazymatch type of H with
  | Ok _ = Ok _ => injection H as <-; assumption
  | Format.block _ _ = Ok _ =>
      eapply block_keeps; [| exact H |];
      [keep_steps | first [assumption | apply P_format_type; assumption]]
  | Format.add _ _ _ _ _ _ = Ok _ =>
      eapply P_add; [| exact H | assumption]; lia
  end.

(** The schema that the constructor returns is the last state of the
    construction, completed with the lookup table over its specs and the
    packer of its format string. *)
Lemma init_invariant (fmt : string) (overwritable : bool) (F : Format.t) :
  P (Format.init_empty fmt) ->
  Format.init fmt overwritable = Ok F ->
  exists s st,
    P s
    /\ Struct.init (Format.pt_fmt_long s) = Ok st
    /\ F = {| Format.fmt := Format.fmt s; Format.specs := Format.specs s;
              Format.rec_len := Format.rec_len s;
              Format.pt_fmt_long := Format.pt_fmt_long s;
              Format.format_type := Format.format_type s;
              Format.lookup :=
                fold_left (fun m sp => <[Spec.name sp := sp]> m) (Format.specs s)
                          (∅ : gmap string Spec.t);
              Format.packer := Some st |}.
Proof.
  unfold Format.init. intros H0 H.
  destruct (negb _); [discriminate|].
  apply bind_Ok in H as (s1 & H1 & H).
  assert (I1 : P s1) by keep_stage H1.
  apply bind_Ok in H as (s2 & H2 & H).
  assert (I2 : P s2) by (unfold Format.add' in H2; keep_stage H2).
  apply bind_Ok in H as (s3 & H3 & H).
  assert (I3 : P s3) by keep_stage H3.
  apply bind_Ok in H as (s4 & H4 & H).
  assert (I4 : P s4) by keep_stage H4.
  apply bind_Ok in H as (s5 & H5 & H).
  assert (I5 : P s5) by keep_stage H5.
  apply bind_Ok in H as (fmt0 & _ & H).
  apply bind_Ok in H as (s6 & H6 & H).
  assert (I6 : P s6).
  { destruct (Ascii.eqb fmt0 "h"); [|injection H6 as <-; assumption].
    apply bind_Ok in H6 as (s5' & H5' & H6).
    assert (I5' : P s5') by keep_stage H5'.
    keep_stage H6. }
  apply bind_Ok in H as (st & Hst & H).
  injection H as <-. exists s6, st. auto.
Qed.

End InitInvariant.

Lemma add_fields name c num pk ow (s s' : Format.t) :
  Format.add name c num pk ow s = Ok s' ->
  exists sp,
    Format.specs s' = Format.specs s ++ [sp]
    /\ Format.fmt s' = Format.fmt s
    /\ Spec.name sp = name /\ Spec.num sp = num
    /\ Spec.idx sp = Z.of_nat (List.length (Format.specs s))
    /\ Spec.pack sp = pk /\ Spec.overwritable sp = ow
    /\ Spec.Format sp = c.
Proof.
  unfold Format.add. intros H.
  apply bind_Ok in H as (offs & _ & H).
  apply bind_Ok in H as (code & Hcode & H).
  apply bind_Ok in H as (len & _ & H).
  apply bind_Ok in H as (sp & Hsp & H).
  apply bind_Ok in H as (ch & _ & H).
  injection H as <-. exists sp. simpl.
  unfold Spec.init in Hsp.
  repeat (apply bind_Ok in Hsp as (? & _ & Hsp)).
  injection Hsp as <-. simpl. auto 10.
Qed.

Lemma init_keeps_identifier (fmt : string) (overwritable : bool) (F : Format.t) :
  Format.init fmt overwritable = Ok F -> Format.fmt F = fmt.
Proof.
  intros HF.
  assert (Hadd : forall name c num pk ow s s',
            0 < num -> Format.add name c num pk ow s = Ok s' ->
            Format.fmt s = fmt -> Format.fmt s' = fmt).
  { intros name c num pk ow s s' _ Ha Hs.
    destruct (add_fields _ _ _ _ _ _ _ Ha) as (sp & _ & Hf & _). congruence. }
  destruct (init_invariant (fun s => Format.fmt s = fmt) (fun _ _ H => H) Hadd
              fmt overwritable F eq_refl HF) as (s & st & Hs & _ & ->).
  exact Hs.
Qed.

(** X5. The constructor of a schema accepts exactly the eleven identifiers
    of the registry and keeps the identifier in the schema; for every other
    string it raises the package's exception with the message
    "Invalid format: " followed by the string. *)
Theorem init_accepts_registry (fmt : string) (overwritable : bool) :
  match Format.init fmt overwritable with
  | Ok F => In fmt identifiers /\ Format.fmt F = fmt
  | Raise e =>
      e = LaspyException (String.append "Invalid format: " fmt) /\ ~ In fmt identifiers
  end.
Proof.
  destruct (Format.init fmt overwritable) as [F|e] eqn:HF.
  - split; [now apply init_identifier in HF | now apply init_keeps_identifier in HF].
  - assert (Hnot : ~ In fmt identifiers).
    { intros Hin. destruct (init_succeeds fmt overwritable Hin) as [F HF']. congruence. }
    split; [|exact Hnot].
    unfold Format.init in HF.
    destruct (Format.str_in fmt _) eqn:Hin.
    + apply str_in_cases in Hin. contradiction.
    + simpl in HF. congruence.
Qed.

Lemma init_accepts_registry_witness :
  match Format.init "9" false with
  | Ok F => In "9" identifiers /\ Format.fmt F = "9"
  | Raise e =>
      e = LaspyException (String.append "Invalid format: " "9") /\ ~ In "9" identifiers
  end.
Proof. exact (init_accepts_registry "9" false). Defined.

(** *** Fields inside the record *)








(** *** Lookup by name and by position *)

Lemma init_lookup_table (fmt : string) (overwritable : bool) (F : Format.t) :
  Format.init fmt overwritable = Ok F ->
  Format.lookup F
  = fold_left (fun m sp => <[Spec.name sp := sp]> m) (Format.specs F)
              (∅ : gmap string Spec.t).
Proof.
  intros HF.
  destruct (init_invariant (fun _ => True) (fun _ _ H => H)
              (fun _ _ _ _ _ _ _ _ _ H => H) fmt overwritable F I HF)
    as (s & st & _ & _ & ->).
  reflexivity.
Qed.

Lemma init_positions (fmt : string) (overwritable : bool) (F : Format.t) :
  Format.init fmt overwritable = Ok F ->
  forall (i : nat) (sp : Spec.t),
    Format.specs F !! i = Some sp -> Spec.idx sp = Z.of_nat i.
Proof.
  intros HF.
  set (P := fun s : Format.t =>
              forall (i : nat) (sp : Spec.t),
                Format.specs s !! i = Some sp -> Spec.idx sp = Z.of_nat i).
  assert (Hadd : forall name c num pk ow s s',
            0 < num -> Format.add name c num pk ow s = Ok s' -> P s -> P s').
  { intros name c num pk ow s s' _ Ha Hs i sp Hsp.
    destruct (add_fields _ _ _ _ _ _ _ Ha) as (new & Hspecs & _ & _ & _ & Hidx & _).
    rewrite Hspecs in Hsp.
    apply lookup_snoc_Some in Hsp as [[_ Hsp] | [Hi Heq]]; [now apply Hs|].
    subst. exact Hidx. }
  destruct (init_invariant P (fun _ _ H => H) Hadd fmt overwritable F) as
    (s & st & Hs & _ & ->); [intros i sp; discriminate | exact HF | exact Hs].
Qed.

Lemma lookup_table_spec (l : list Spec.t) :
  NoDup (List.map Spec.name l) ->
  forall (k : string) (sp : Spec.t),
    fold_left (fun m sp => <[Spec.name sp := sp]> m) l (∅ : gmap string Spec.t) !! k
      = Some sp
    <-> sp ∈ l /\ Spec.name sp = k.
Proof.
  induction l as [|x l IH] using rev_ind; intros Hnd k sp.
  - simpl. rewrite lookup_empty. split; [discriminate | intros [H _]; inversion H].
  - rewrite map_app in Hnd. apply NoDup_app in Hnd as (Hl & Hx & _).
    rewrite fold_left_app. simpl.
    destruct (decide (Spec.name x = k)) as [<-|Hne].
    + rewrite lookup_insert_eq. split.
      * intros [= <-]. split; [|reflexivity].
        apply elem_of_app. right. now apply list_elem_of_singleton.
      * intros [Hin Hname]. apply elem_of_app in Hin as [Hin|Hin].
        -- exfalso. apply (Hx (Spec.name x)); [|now apply list_elem_of_singleton].
           rewrite <- Hname. apply list_elem_of_fmap. eauto.
        -- apply list_elem_of_singleton in Hin. now subst.
    + rewrite lookup_insert_ne by exact Hne. rewrite (IH Hl). split.
      * intros [Hin Hname]. split; [|exact Hname].
        apply elem_of_app. now left.
      * intros [Hin Hname]. split; [|exact Hname].
        apply elem_of_app in Hin as [Hin|Hin]; [exact Hin|].
        apply list_elem_of_singleton in Hin. subst. contradiction.
Qed.

Lemma registry_names_distinct : schemas_pass names_distinct identifiers = true.
Proof. vm_compute. reflexivity. Qed.

Lemma init_names_distinct (fmt : string) (overwritable : bool) (F : Format.t) :
  Format.init fmt overwritable = Ok F -> NoDup (List.map Spec.name (Format.specs F)).
Proof.
  intros HF.
  pose proof (schemas_pass_at _ _ fmt overwritable F registry_names_distinct
                (init_identifier _ _ _ HF) HF) as H.
  unfold names_distinct in H. now apply bool_decide_eq_true in H.
Qed.

Lemma init_lookup_spec (fmt : string) (overwritable : bool) (F : Format.t) :
  Format.init fmt overwritable = Ok F ->
  forall (k : string) (sp : Spec.t),
    Format.lookup F !! k = Some sp <-> sp ∈ Format.specs F /\ Spec.name sp = k.
Proof.
  intros HF. pose proof (init_names_distinct _ _ _ HF) as Hnd.
  rewrite (init_lookup_table _ _ _ HF). now apply lookup_table_spec.
Qed.

(** X7. In every schema that the constructor returns, the field names are
    pairwise distinct and the lookup table maps a name to a field spec
    exactly when that spec is the field of the schema with that name; a name
    that no field bears is absent from the table. *)
Theorem lookup_finds_fields (fmt : string) (overwritable : bool) :
  match Format.init fmt overwritable with
  | Ok F =>
      NoDup (List.map Spec.name (Format.specs F))
      /\ forall (k : string) (sp : Spec.t),
           Format.lookup F !! k = Some sp <-> sp ∈ Format.specs F /\ Spec.name sp = k
  | Raise _ => True
  end.
Proof.
  destruct (Format.init fmt overwritable) as [F|] eqn:HF; [|exact I].
  split; [exact (init_names_distinct _ _ _ HF) | exact (init_lookup_spec _ _ _ HF)].
Qed.

Lemma lookup_finds_fields_witness :
  match Format.init "VLR" false with
  | Ok F =>
      NoDup (List.map Spec.name (Format.specs F))
      /\ forall (k : string) (sp : Spec.t),
           Format.lookup F !! k = Some sp <-> sp ∈ Format.specs F /\ Spec.name sp = k
  | Raise _ => True
  end.
Proof. exact (lookup_finds_fields "VLR" false). Defined.

(** X8. In every schema that the constructor returns, indexing with an
    integer [i] between minus the number of fields and the number of fields
    returns the field at that position, counted from the end when [i] is
    negative; the field records that position as its index and is the one
    the lookup table holds under its name.  Any other integer raises
    [IndexError]. *)
Theorem getitem_by_position (fmt : string) (overwritable : bool) (i : Z) :
  match Format.init fmt overwritable with
  | Ok F =>
      let n := Z.of_nat (List.length (Format.specs F)) in
      match Format.getitem F (Format.Index i) with
      | Ok (Format.One sp) =>
          - n <= i < n
          /\ Format.specs F !! Z.to_nat (i mod n) = Some sp
          /\ Spec.idx sp = i mod n
          /\ Format.lookup F !! Spec.name sp = Some sp
      | Ok (Format.Many _) => False
      | Raise e => e = IndexError /\ ~ (- n <= i < n)
      end
  | Raise _ => True
  end.
Proof.
  destruct (Format.init fmt overwritable) as [F|] eqn:HF; [|exact I].
  cbv zeta. unfold Format.getitem, Format.list_index.
  set (n := Z.of_nat (List.length (Format.specs F))).
  set (i' := if i <? 0 then i + n else i).
  destruct ((0 <=? i') && (i' <? n)) eqn:Hr.
  - assert (Hi : - n <= i < n) by (unfold i' in Hr; destruct (i <? 0) eqn:E; lia).
    assert (Hmod : i mod n = i').
    { unfold i'. destruct (i <? 0) eqn:E.
      - rewrite <- (Z.mod_add i 1 n), Z.mul_1_l by lia. apply Z.mod_small. lia.
      - apply Z.mod_small. lia. }
    destruct (Format.specs F !! Z.to_nat i') as [sp|] eqn:Hsp; simpl.
    + split; [exact Hi|]. rewrite Hmod. split; [exact Hsp|]. split.
      * rewrite (init_positions _ _ _ HF _ _ Hsp). lia.
      * apply (init_lookup_spec _ _ _ HF). split; [|reflexivity].
        apply list_elem_of_lookup. eauto.
    + apply lookup_ge_None in Hsp. unfold n in *. lia.
  - simpl. split; [reflexivity|]. unfold i' in Hr. destruct (i <? 0) eqn:E; lia.
Qed.

Lemma getitem_by_position_witness :
  match Format.init "0" false with
  | Ok F =>
      let n := Z.of_nat (List.length (Format.specs F)) in
      match Format.getitem F (Format.Index (-1)) with
      | Ok (Format.One sp) =>
          - n <= -1 < n
          /\ Format.specs F !! Z.to_nat ((-1) mod n) = Some sp
          /\ Spec.idx sp = (-1) mod n
          /\ Format.lookup F !! Spec.name sp = Some sp
      | Ok (Format.Many _) => False
      | Raise e => e = IndexError /\ ~ (- n <= -1 < n)
      end
  | Raise _ => True
  end.
Proof. exact (getitem_by_position "0" false (-1)). Defined.

(** *** Slices *)










(** *** The packer of a schema *)

Lemma registry_packers : schemas_pass packer_one_per_field identifiers = true.
Proof. vm_compute. reflexivity. Qed.

(** X10. In every schema that the constructor returns, the packer is the
    one of the schema's format string and has one item per field, of the
    field's element type: its size is the sum of the element sizes, each
    counted once.  It is at most the record length, and equal to it exactly
    when every field has one element.  Decoding accepts the blocks of that
    size and no others, and returns one value per field. *)
Theorem packer_one_item_per_field (fmt : string) (overwritable : bool) :
  match Format.init fmt overwritable with
  | Ok F =>
      exists st,
        Format.packer F = Some st
        /\ Struct.format st = Format.pt_fmt_long F
        /\ mapM spec_code (Format.specs F) = Some (Struct.codes st)
        /\ Struct.size st = sum_element_sizes (Format.specs F)
        /\ Struct.size st <= Format.rec_len F
        /\ (Struct.size st = Format.rec_len F
            <-> forall sp, sp ∈ Format.specs F -> Spec.num sp = 1)
        /\ forall data,
             match decode F data with
             | Ok values =>
                 Z.of_nat (List.length data) = Struct.size st
                 /\ List.length values = List.length (Format.specs F)
             | Raise e => e = StructError /\ Z.of_nat (List.length data) <> Struct.size st
             end
  | Raise _ => True
  end.
Proof.
  destruct (Format.init fmt overwritable) as [F|] eqn:HF; [|exact I].
  pose proof (schemas_pass_at _ _ fmt overwritable F registry_packers
                (init_identifier _ _ _ HF) HF) as H.
  unfold packer_one_per_field in H.
  destruct (Format.packer F) as [st|] eqn:Hp; [|discriminate].
  apply andb_prop in H as [H Hall]. apply andb_prop in H as [H Hle].
  apply andb_prop in H as [H Hsz]. apply andb_prop in H as [Hfmt Hcodes].
  apply String.eqb_eq in Hfmt. apply bool_decide_eq_true in Hcodes.
  apply Z.eqb_eq in Hsz. apply Z.leb_le in Hle. apply Bool.eqb_prop in Hall.
  exists st. split; [reflexivity|]. repeat (split; [assumption|]). split.
  - split.
    + intros Hn sp Hin. apply Z.eqb_eq in Hn. rewrite Hall, forallb_forall in Hn.
      apply Z.eqb_eq, Hn, list_elem_of_In, Hin.
    + intros Hn. apply Z.eqb_eq. rewrite Hall, forallb_forall.
      intros sp Hin. apply Z.eqb_eq, Hn, list_elem_of_In, Hin.
  - intros data. unfold decode, Point.init. cbn [Point.point_format]. rewrite Hp.
    cbn [bind]. unfold Struct.unpack.
    destruct (Z.of_nat (List.length data) =? Struct.size st) eqn:E; cbn [bind].
    + split; [lia|]. cbn [Point.unpacked].
      apply mapM_Some_1, Forall2_length in Hcodes. rewrite Hcodes.
      clear. generalize data. induction (Struct.codes st) as [|c cs IH]; intros d; simpl;
        [reflexivity | now rewrite IH].
    + split; [reflexivity | lia].
Qed.

Lemma packer_one_item_per_field_witness :
  match Format.init "h1.3" true with
  | Ok F =>
      exists st,
        Format.packer F = Some st
        /\ Struct.format st = Format.pt_fmt_long F
        /\ mapM spec_code (Format.specs F) = Some (Struct.codes st)
        /\ Struct.size st = sum_element_sizes (Format.specs F)
        /\ Struct.size st <= Format.rec_len F
        /\ (Struct.size st = Format.rec_len F
            <-> forall sp, sp ∈ Format.specs F -> Spec.num sp = 1)
        /\ forall data,
             match decode F data with
             | Ok values =>
                 Z.of_nat (List.length data) = Struct.size st
                 /\ List.length values = List.length (Format.specs F)
             | Raise e => e = StructError /\ Z.of_nat (List.length data) <> Struct.size st
             end
  | Raise _ => True
  end.
Proof. exact (packer_one_item_per_field "h1.3" true). Defined.

(** *** The point format identifier of the header *)

(** X11. The write accessor of the point format identifier never changes
    the header.  It accepts an integer exactly when the read accessor of the
    record length has an entry for it, and that entry is then the record
    length of the point schema of that identifier; any other integer raises
    [LaspyHeaderException] and is no identifier of a point schema. *)
Theorem set_dataformatid_accepts (value : Z) (h : Header.t) :
  fst (Header.set_dataformatid value h) = h
  /\ match snd (Header.set_dataformatid value h) with
     | Ok _ =>
         exists len,
           Header.lenDict !! value = Some len
           /\ forall overwritable,
                on_schema (Format.str_of_int value) overwritable
                          (fun F => Ok (Format.format_type F, Format.rec_len F))
                = Ok (Some ("point format = " ++ Format.str_of_int value)%string, len)
     | Raise e =>
         e = LaspyHeaderException "Format ID must be 3, 2, 1, or 0"
         /\ Header.lenDict !! value = None
         /\ ~ In (Format.str_of_int value) point_identifiers
     end.
Proof.
  unfold Header.set_dataformatid.
  destruct ((0 <=? value) && (value <? 6)) eqn:Hr; cbn [negb].
  - split; [reflexivity|]. cbn [Header.ret snd].
    assert (Hc : value = 0 \/ value = 1 \/ value = 2 \/ value = 3 \/ value = 4 \/ value = 5)
      by lia.
    repeat (destruct Hc as [-> | Hc]); try subst value;
      eexists; (split; [vm_compute; reflexivity|]); intros [|]; vm_compute; reflexivity.
  - split; [reflexivity|]. cbn [Header.lift snd].
    split; [reflexivity|]. split.
    + rewrite lenDict_lookup.
      destruct ((0 <=? value) && (value <=? 5)) eqn:Hr'; [lia | reflexivity].
    + unfold point_identifiers, Format.str_of_int. intros Hin.
      change "0"%string with (pretty 0) in Hin. change "1"%string with (pretty 1) in Hin.
      change "2"%string with (pretty 2) in Hin. change "3"%string with (pretty 3) in Hin.
      change "4"%string with (pretty 4) in Hin. change "5"%string with (pretty 5) in Hin.
      simpl in Hin.
      repeat (destruct Hin as [Hin | Hin]; [apply (inj pretty) in Hin; lia|]).
      exact Hin.
Qed.

Lemma set_dataformatid_accepts_witness :
  fst (Header.set_dataformatid 5 (header_of [("PtDatFormatID", PInt 1)]))
  = header_of [("PtDatFormatID", PInt 1)]
  /\ match snd (Header.set_dataformatid 5 (header_of [("PtDatFormatID", PInt 1)])) with
     | Ok _ =>
         exists len,
           Header.lenDict !! 5 = Some len
           /\ forall overwritable,
                on_schema (Format.str_of_int 5) overwritable
                          (fun F => Ok (Format.format_type F, Format.rec_len F))
                = Ok (Some ("point format = " ++ Format.str_of_int 5)%string, len)
     | Raise e =>
         e = LaspyHeaderException "Format ID must be 3, 2, 1, or 0"
         /\ Header.lenDict !! 5 = None
         /\ ~ In (Format.str_of_int 5) point_identifiers
     end.
Proof. exact (set_dataformatid_accepts 5 (header_of [("PtDatFormatID", PInt 1)])). Defined.

(** *** Named attributes of a point *)

Lemma name_values_attrs (dims : list Spec.t) (i : nat) (p p' : Point.t) :
  Point.name_values dims i p = Ok p' ->
  Point.reader p' = Point.reader p
  /\ Point.packer p' = Point.packer p
  /\ Point.unpacked p' = Point.unpacked p
  /\ (forall k, ~ In k (List.map Spec.name dims) -> Point.attrs p' !! k = Point.attrs p !! k)
  /\ (NoDup (List.map Spec.name dims) ->
      forall (j : nat) (sp : Spec.t),
        dims !! j = Some sp ->
        is_Some (Point.unpacked p !! (i + j)%nat)
        /\ Point.attrs p' !! Spec.name sp = Point.unpacked p !! (i + j)%nat).
Proof.
  revert i p. induction dims as [|d ds IH]; intros i p H; cbn [Point.name_values] in H.
  - injection H as <-. do 3 (split; [reflexivity|]). split; [intros; reflexivity|].
    intros _ j sp Hj. discriminate Hj.
  - destruct (Point.unpacked p !! i) as [v|] eqn:Hv; [|discriminate].
    apply IH in H as (Hr & Hp & Hu & Hout & Hin).
    cbn [Point.setattr Point.reader Point.packer Point.unpacked Point.attrs] in *.
    do 3 (split; [assumption|]). split.
    + intros k Hk. cbn [List.map] in Hk.
      rewrite Hout by (intros Hk'; apply Hk; now right).
      apply lookup_insert_ne. intros E. apply Hk. now left.
    + intros Hnd j sp Hj. cbn [List.map] in Hnd. apply NoDup_cons in Hnd as [Hd Hnd].
      destruct j as [|j]; cbn in Hj.
      * injection Hj as <-. rewrite Nat.add_0_r, Hv. split; [eauto|].
        rewrite Hout by (intros Hk; apply Hd, list_elem_of_In, Hk).
        apply lookup_insert_eq.
      * replace (i + S j)%nat with (S i + j)%nat by lia. now apply Hin.
Qed.

Lemma name_values_outcome (dims : list Spec.t) (i : nat) (p : Point.t) :
  match Point.name_values dims i p with
  | Ok _ => (i + List.length dims <= List.length (Point.unpacked p))%nat \/ dims = []
  | Raise e => e = IndexError /\ (List.length (Point.unpacked p) < i + List.length dims)%nat
  end.
Proof.
  revert i p. induction dims as [|d ds IH]; intros i p; cbn [Point.name_values].
  - now right.
  - destruct (Point.unpacked p !! i) as [v|] eqn:Hv.
    + apply lookup_lt_Some in Hv.
      specialize (IH (S i) (Point.setattr (Spec.name d) v p)).
      destruct (Point.name_values ds (S i) _); cbn [Point.setattr Point.unpacked] in IH.
      * left. destruct IH as [IH | ->]; cbn [List.length]; lia.
      * destruct IH as [-> IH]. split; [reflexivity|]. cbn [List.length]. lia.
    + apply lookup_ge_None in Hv. split; [reflexivity|]. cbn [List.length]. lia.
Qed.

Lemma well_formed_Forall2 (specs : list Spec.t) (values : list pyval) :
  well_formed specs values = true ->
  Forall2 (fun sp v => value_matches sp v = true) specs values.
Proof.
  revert values. induction specs as [|sp specs IH]; intros [|v values] H;
    try discriminate; [constructor|].
  cbn [well_formed] in H. apply andb_prop in H as [Hv H].
  constructor; [exact Hv | now apply IH].
Qed.

Lemma byte_field_value (sp : Spec.t) (v : pyval) :
  byte_field sp = true -> value_matches sp v = true -> exists n, v = PInt n.
Proof.
  unfold byte_field, value_matches. intros H Hv.
  apply andb_prop in H as [Hc Hn]. apply bool_decide_eq_true in Hc.
  rewrite Hc, Hn in Hv. destruct v; try discriminate. eauto.
Qed.

Lemma point_schemas_nice_ready : schemas_pass nice_ready point_identifiers = true.
Proof. vm_compute. reflexivity. Qed.

Lemma other_schemas_without_flag_byte :
  schemas_pass without_flag_byte other_identifiers = true.
Proof. vm_compute. reflexivity. Qed.

Lemma make_nice_attributes (id : string) (overwritable : bool) (F : Format.t)
    (st : Struct.t) (values : list pyval) :
  In id point_identifiers ->
  Format.init id overwritable = Ok F ->
  well_formed (Format.specs F) values = true ->
  exists p,
    Point.make_nice {| Point.reader := Point.mk_reader F; Point.packer := st;
                       Point.unpacked := values; Point.attrs := ∅ |} = Ok p
    /\ Point.unpacked p = values
    /\ Point.packer p = st
    /\ (forall (i : nat) (sp : Spec.t),
          Format.specs F !! i = Some sp ->
          exists v, values !! i = Some v /\ Point.getattr p (Spec.name sp) = Ok v)
    /\ (forall k, In k derived_names -> exists n, Point.getattr p k = Ok (PInt n)).
Proof.
  intros Hid HF Hwf.
  pose proof (schemas_pass_at _ _ id overwritable F point_schemas_nice_ready Hid HF) as Hready.
  assert (Hreg : In id identifiers).
  { unfold point_identifiers in Hid. unfold identifiers. simpl in *. tauto. }
  pose proof (init_names_distinct _ _ _ HF) as Hnd.
  apply well_formed_Forall2 in Hwf.
  pose proof (Forall2_length _ _ _ Hwf) as Hlen.
  unfold nice_ready in Hready. apply andb_prop in Hready as [Hfree Hbytes].
  rewrite forallb_forall in Hfree.
  destruct (Format.specs F !! 4%nat) as [a|] eqn:Ha; [|discriminate].
  destruct (Format.specs F !! 5%nat) as [b|] eqn:Hb; [|discriminate].
  apply andb_prop in Hbytes as [Hbytes Hbb]. apply andb_prop in Hbytes as [Hbytes Hbn].
  apply andb_prop in Hbytes as [Han Hab].
  apply String.eqb_eq in Han. apply String.eqb_eq in Hbn.
  set (p0 := {| Point.reader := Point.mk_reader F; Point.packer := st;
                Point.unpacked := values; Point.attrs := ∅ |}).
  unfold Point.make_nice. cbn [Point.reader Point.point_format].
  change (Point.reader p0) with (Point.mk_reader F). cbn [Point.point_format].
  pose proof (name_values_outcome (Format.specs F) 0 p0) as Hout.
  destruct (Point.name_values (Format.specs F) 0 p0) as [p1|e] eqn:Hnv.
  2:{ destruct Hout as [_ Hout]. cbn [p0 Point.unpacked] in Hout. lia. }
  clear Hout. apply name_values_attrs in Hnv as (_ & Hpk & Hun & _ & Hat).
  specialize (Hat Hnd). cbn [p0 Point.unpacked Point.packer] in Hun, Hpk, Hat.
  assert (Hfield : forall (i : nat) (sp : Spec.t),
             Format.specs F !! i = Some sp ->
             exists v, values !! i = Some v /\ Point.attrs p1 !! Spec.name sp = Some v
                       /\ value_matches sp v = true).
  { intros i sp Hsp. destruct (Hat i sp Hsp) as [[v Hv] Hattr]. simpl in Hv, Hattr.
    exists v. split; [exact Hv|]. split; [now rewrite Hattr|].
    exact (Forall2_lookup_lr _ _ _ _ _ _ Hwf Hsp Hv). }
  destruct (Hfield _ _ Ha) as (va & _ & Hva & Hma).
  destruct (Hfield _ _ Hb) as (vb & _ & Hvb & Hmb).
  destruct (byte_field_value _ _ Hab Hma) as [na ->].
  destruct (byte_field_value _ _ Hbb Hmb) as [nb ->].
  rewrite Han in Hva. rewrite Hbn in Hvb.
  cbn [bind]. unfold Point.getattr at 1. rewrite Hva. cbn [bind Point.bits_of].
  unfold Point.getattr at 1. cbn [Point.setattr Point.attrs].
  rewrite !lookup_insert_ne by discriminate. rewrite Hvb. cbn [bind Point.bits_of].
  eexists. split; [reflexivity|].
  cbn [Point.setattr Point.unpacked Point.packer Point.attrs Point.getattr].
  split; [exact Hun|]. split; [exact Hpk|]. split.
  - intros i sp Hsp. destruct (Hfield i sp Hsp) as (v & Hv & Hattr & _).
    exists v. split; [exact Hv|].
    assert (Hne : Format.str_in (Spec.name sp) derived_names = false).
    { apply negb_true_iff, Hfree. apply list_elem_of_In, list_elem_of_lookup. eauto. }
    unfold Format.str_in, derived_names in Hne. cbn [existsb] in Hne.
    repeat (apply orb_false_elim in Hne as [?%String.eqb_neq Hne]).
    unfold Point.getattr, Point.setattr. cbn [Point.attrs].
    rewrite !lookup_insert_ne by congruence. now rewrite Hattr.
  - intros k Hk. unfold derived_names in Hk. cbn [In] in Hk.
    unfold Point.getattr, Point.setattr. cbn [Point.attrs].
    repeat (destruct Hk as [<- | Hk];
            [eexists; rewrite ?lookup_insert_ne by discriminate;
             rewrite lookup_insert_eq; reflexivity|]).
    destruct Hk.
Qed.

(** X12. On each of the six point schemas, a point built with
    [nice = True] from a byte block or from a value list, whose raw values
    are well formed (those of a byte block of the record length always are),
    is built without error.  It has the raw values and the packed form of the
    point built without [nice], the attribute named after each field holds
    the raw value at the field's position, and each of the eight attributes
    derived from the two bit-field bytes holds an integer; so no derived
    attribute replaces a field. *)
Theorem nice_point_attributes (id : string) (overwritable : bool)
    (bytestr : option (list byte)) (unpacked_list : option (list pyval)) :
  In id point_identifiers ->
  on_schema id overwritable
    (fun F => let* raw := Point.init (Point.mk_reader F) bytestr unpacked_list false in
              Ok (well_formed (Format.specs F) (Point.unpacked raw))) = Ok true ->
  match Format.init id overwritable with
  | Ok F =>
      match Point.init (Point.mk_reader F) bytestr unpacked_list false,
            Point.init (Point.mk_reader F) bytestr unpacked_list true with
      | Ok raw, Ok p =>
          Point.unpacked p = Point.unpacked raw
          /\ Point.pack p = Point.pack raw
          /\ (forall (i : nat) (sp : Spec.t),
                Format.specs F !! i = Some sp ->
                exists v, Point.unpacked p !! i = Some v
                          /\ Point.getattr p (Spec.name sp) = Ok v)
          /\ (forall k, In k derived_names -> exists n, Point.getattr p k = Ok (PInt n))
      | _, _ => False
      end
  | Raise _ => False
  end.
Proof.
  intros Hid Hwf. apply on_schema_Ok in Hwf as (F & HF & Hwf).
  rewrite HF.
  apply bind_Ok in Hwf as (raw & Hraw & Hwf). injection Hwf as Hwf.
  rewrite Hraw.
  unfold Point.init in Hraw |- *. cbn [Point.point_format] in Hraw |- *.
  destruct (Format.packer F) as [st|]; cbn [bind] in Hraw |- *; [|discriminate].
  destruct (match bytestr with Some b => Struct.unpack st b | None => _ end)
    as [values|] eqn:Hvalues; cbn [bind] in Hraw |- *; [|discriminate].
  injection Hraw as <-. cbn [Point.unpacked] in Hwf.
  destruct (make_nice_attributes id overwritable F st values Hid HF Hwf)
    as (p & Hp & Hun & Hpk & Hfields & Hder).
  rewrite Hp. split; [exact Hun|]. split.
  - unfold Point.pack. cbn [Point.unpacked Point.packer]. now rewrite Hun, Hpk.
  - rewrite Hun. split; assumption.
Qed.

Lemma nice_point_attributes_witness :
  match Format.init "0" false with
  | Ok F =>
      match Point.init (Point.mk_reader F) (Some point0_block) None false,
            Point.init (Point.mk_reader F) (Some point0_block) None true with
      | Ok raw, Ok p =>
          Point.unpacked p = Point.unpacked raw
          /\ Point.pack p = Point.pack raw
          /\ (forall (i : nat) (sp : Spec.t),
                Format.specs F !! i = Some sp ->
                exists v, Point.unpacked p !! i = Some v
                          /\ Point.getattr p (Spec.name sp) = Ok v)
          /\ (forall k, In k derived_names -> exists n, Point.getattr p k = Ok (PInt n))
      | _, _ => False
      end
  | Raise _ => False
  end.
Proof.
  apply (nice_point_attributes "0" false (Some point0_block) None);
    [simpl; tauto | vm_compute; reflexivity].
Defined.

(** X13. On the VLR schema and the four header schemas a point cannot be
    built with [nice = True]: whatever byte block or value list is given,
    the constructor raises.  The error is that of the constructor without
    [nice] when that one fails, [IndexError] when there are fewer raw values
    than fields, and otherwise [AttributeError] for [flag_byte], which those
    schemas do not have. *)
Theorem nice_point_needs_point_schema (id : string) (overwritable : bool)
    (bytestr : option (list byte)) (unpacked_list : option (list pyval)) :
  In id other_identifiers ->
  match Format.init id overwritable with
  | Ok F =>
      match Point.init (Point.mk_reader F) bytestr unpacked_list false,
            Point.init (Point.mk_reader F) bytestr unpacked_list true with
      | _, Ok _ => False
      | Raise e, Raise e' => e' = e
      | Ok raw, Raise e' =>
          if (List.length (Point.unpacked raw) <? List.length (Format.specs F))%nat
          then e' = IndexError
          else e' = AttributeError "flag_byte"
      end
  | Raise _ => False
  end.
Proof.
  intros Hid.
  assert (Hreg : In id identifiers).
  { unfold other_identifiers in Hid. unfold identifiers. simpl in *. tauto. }
  destruct (init_succeeds id overwritable Hreg) as [F HF]. rewrite HF.
  pose proof (schemas_pass_at _ _ id overwritable F other_schemas_without_flag_byte Hid HF)
    as Hno.
  unfold without_flag_byte in Hno. rewrite forallb_forall in Hno.
  unfold Point.init. cbn [Point.point_format].
  destruct (Format.packer F) as [st|]; cbn [bind]; [|reflexivity].
  destruct (match bytestr with Some b => Struct.unpack st b | None => _ end)
    as [values|]; cbn [bind]; [|reflexivity].
  set (p0 := {| Point.reader := Point.mk_reader F; Point.packer := st;
                Point.unpacked := values; Point.attrs := ∅ |}).
  unfold Point.make_nice. change (Point.reader p0) with (Point.mk_reader F).
  cbn [Point.point_format].
  pose proof (name_values_outcome (Format.specs F) 0 p0) as Hout.
  destruct (Point.name_values (Format.specs F) 0 p0) as [p1|e] eqn:Hnv; cbn [bind].
  - assert (Hlen : (List.length values <? List.length (Format.specs F))%nat = false).
    { apply Nat.ltb_ge. cbn [p0 Point.unpacked] in Hout.
      destruct Hout as [Hout | ->]; [lia | simpl; lia]. }
    change (Point.unpacked p0) with values. rewrite Hlen.
    apply name_values_attrs in Hnv as (_ & _ & _ & Hkeep & _).
    unfold Point.getattr at 1. rewrite Hkeep.
    + cbn [p0 Point.attrs]. rewrite lookup_empty. reflexivity.
    + intros Hin. apply in_map_iff in Hin as (sp & Hname & Hin).
      specialize (Hno sp Hin). rewrite Hname in Hno. discriminate Hno.
  - destruct Hout as [-> Hout]. change (Point.unpacked p0) with values in Hout |- *.
    replace (List.length values <? List.length (Format.specs F))%nat with true
      by (symmetry; apply Nat.ltb_lt; lia).
    reflexivity.
Qed.

Lemma nice_point_needs_point_schema_witness :
  match Format.init "VLR" false with
  | Ok F =>
      match Point.init (Point.mk_reader F) None (Some vlr_values) false,
            Point.init (Point.mk_reader F) None (Some vlr_values) true with
      | _, Ok _ => False
      | Raise e, Raise e' => e' = e
      | Ok raw, Raise e' =>
          if (List.length (Point.unpacked raw) <? List.length (Format.specs F))%nat
          then e' = IndexError
          else e' = AttributeError "flag_byte"
      end
  | Raise _ => False
  end.
Proof.
  apply (nice_point_needs_point_schema "VLR" false None (Some vlr_values)).
  simpl. tauto.
Defined.

(** *** The version string *)

Lemma pretty_N_char_digit (x : N) :
  (x < 10)%N -> digit_of (pretty_N_char x) = Some (Z.of_N x).
Proof.
  intros Hx.
  assert (Hc : (x = 0 \/ x = 1 \/ x = 2 \/ x = 3 \/ x = 4 \/ x = 5 \/ x = 6 \/ x = 7
                \/ x = 8 \/ x = 9)%N) by lia.
  repeat (destruct Hc as [-> | Hc]); try subst x; reflexivity.
Qed.

Lemma pretty_N_go_digits (x : N) (s : string) :
  all_chars is_digit s = true -> all_chars is_digit (pretty_N_go x s) = true.
Proof.
  revert s. induction (N.lt_wf_0 x) as [x _ IH]; intros s Hs.
  assert (Hx : (x = 0 \/ 0 < x)%N) by lia. destruct Hx as [-> | Hx].
  - now rewrite pretty_N_go_0.
  - rewrite pretty_N_go_step by exact Hx. apply IH.
    + now apply N.div_lt.
    + cbn [all_chars]. rewrite Hs. unfold is_digit.
      rewrite pretty_N_char_digit by (apply N.mod_lt; lia). reflexivity.
Qed.

Lemma pretty_N_go_value (x : N) (s : string) :
  digits_value 0 (pretty_N_go x s) = digits_value (Z.of_N x) s.
Proof.
  revert s. induction (N.lt_wf_0 x) as [x _ IH]; intros s.
  assert (Hx : (x = 0 \/ 0 < x)%N) by lia. destruct Hx as [-> | Hx].
  - now rewrite pretty_N_go_0.
  - rewrite pretty_N_go_step by exact Hx. rewrite IH by now apply N.div_lt.
    cbn [digits_value]. rewrite pretty_N_char_digit by (apply N.mod_lt; lia).
    f_equal. rewrite (N.div_mod x 10) at 3 by lia. lia.
Qed.

Lemma pretty_N_go_length (x : N) (s : string) :
  (String.length s <= String.length (pretty_N_go x s))%nat.
Proof.
  revert s. induction (N.lt_wf_0 x) as [x _ IH]; intros s.
  assert (Hx : (x = 0 \/ 0 < x)%N) by lia. destruct Hx as [-> | Hx].
  - now rewrite pretty_N_go_0.
  - rewrite pretty_N_go_step by exact Hx.
    etransitivity; [|apply IH; now apply N.div_lt]. cbn [String.length]. lia.
Qed.

Lemma pretty_N_digits (x : N) :
  all_chars is_digit (pretty x) = true
  /\ pretty x <> ""%string
  /\ digits_value 0 (pretty x) = Some (Z.of_N x).
Proof.
  unfold pretty, pretty_N. destruct (decide (x = 0%N)) as [-> | Hx].
  - repeat split; [discriminate].
  - split; [now apply pretty_N_go_digits|]. split.
    + assert (H0 : (0 < x)%N) by lia.
      rewrite pretty_N_go_step by exact H0.
      pose proof (pretty_N_go_length (x `div` 10)
                    (String (pretty_N_char (x `mod` 10)) "")) as Hlen.
      intros E. rewrite E in Hlen. cbn in Hlen. lia.
    + rewrite pretty_N_go_value. reflexivity.
Qed.

Lemma pretty_Z_plain (z : Z) : all_chars (plain ".") (pretty z) = true.
Proof.
  assert (HN : forall x : N, all_chars (plain ".") (pretty x) = true).
  { intros x. apply (all_chars_impl is_digit); [apply digit_is_plain|].
    apply pretty_N_digits. }
  destruct z as [|q|q]; [reflexivity | apply (HN (N.pos q)) |].
  change (pretty (Z.neg q)) with (String "-" (pretty (N.pos q))).
  cbn [all_chars]. now rewrite (HN (N.pos q)).
Qed.

Lemma py_int_digits (s : string) (v : Z) :
  all_chars is_digit s = true -> s <> ""%string -> digits_value 0 s = Some v ->
  py_int s = Ok v /\ py_int (String "-" s) = Ok (- v).
Proof.
  intros Hd Hne Hv.
  assert (Hplain : all_chars (fun c => negb (is_space c)) s = true).
  { apply (all_chars_impl is_digit); [|exact Hd].
    intros c Hc. apply digit_is_plain in Hc. unfold plain in Hc.
    now apply andb_prop in Hc as [Hc _]. }
  unfold py_int. split.
  - rewrite (strip_no_blank s Hplain).
    destruct s as [|c rest]; [congruence|].
    cbn [all_chars] in Hd. apply andb_prop in Hd as [Hc _].
    destruct c as [[] [] [] [] [] [] [] []]; try discriminate Hc;
      cbv beta iota zeta; now rewrite Hv.
  - rewrite (strip_no_blank (String "-" s)) by (cbn [all_chars]; now rewrite Hplain).
    destruct s as [|c rest]; [congruence|]. now rewrite Hv.
Qed.

Lemma py_int_pretty (z : Z) : py_int (pretty z) = Ok z.
Proof.
  destruct z as [|q|q]; [reflexivity | |].
  - destruct (pretty_N_digits (N.pos q)) as (Hd & Hne & Hv).
    exact (proj1 (py_int_digits _ _ Hd Hne Hv)).
  - destruct (pretty_N_digits (N.pos q)) as (Hd & Hne & Hv).
    exact (proj2 (py_int_digits _ _ Hd Hne Hv)).
Qed.

(** X14. The version string that the read accessor builds from the two
    version numbers of the header is accepted by the write accessor: it
    splits at the dot into exactly two pieces, each piece converts back to
    the number it was made from, and the call returns without error and
    leaves the header as it was.  This holds for all integers, negative ones
    included. *)
Theorem version_string_accepted (h : Header.t) (major minor : Z) :
  Header.get_majorversion h = Ok (PInt major) ->
  Header.get_minorversion h = Ok (PInt minor) ->
  exists v,
    Header.get_version h = Ok (PStr v)
    /\ split "." v = [pretty major; pretty minor]
    /\ py_int (pretty major) = Ok major
    /\ py_int (pretty minor) = Ok minor
    /\ Header.set_version (PStr v) h = (h, Ok tt).
Proof.
  intros Hmajor Hminor. eexists. split.
  { unfold Header.get_version. rewrite Hmajor, Hminor. reflexivity. }
  assert (Hdot : forall z : Z,
             all_chars (fun c => negb (Ascii.eqb c ".")) (pretty z) = true).
  { intros z. apply (all_chars_impl (plain ".")); [|apply pretty_Z_plain].
    intros c Hc. unfold plain in Hc. now apply andb_prop in Hc as [_ Hc]. }
  assert (Hsplit : split "." (pretty major +:+ String "." (pretty minor))
                   = [pretty major; pretty minor]).
  { rewrite split_at_separator by apply Hdot.
    now rewrite split_without_separator by apply Hdot. }
  split; [exact Hsplit|].
  split; [apply py_int_pretty|]. split; [apply py_int_pretty|].
  unfold Header.set_version. 
  change (pretty major +:+ "." +:+ pretty minor)
    with (pretty major +:+ String "." (pretty minor)).
  rewrite Hsplit.
  unfold Header.then_, Header.lift, Header.set_majorversion, Header.set_minorversion,
    Header.ret.
  now rewrite !py_int_pretty.
Qed.

Lemma version_string_accepted_witness :
  exists v,
    Header.get_version (header_of [("VersionMajor", PInt 1); ("VersionMinor", PInt 12)])
      = Ok (PStr v)
    /\ split "." v = [pretty 1; pretty 12]
    /\ py_int (pretty 1) = Ok 1
    /\ py_int (pretty 12) = Ok 12
    /\ Header.set_version (PStr v)
         (header_of [("VersionMajor", PInt 1); ("VersionMinor", PInt 12)])
       = (header_of [("VersionMajor", PInt 1); ("VersionMinor", PInt 12)], Ok tt).
Proof.
  apply (version_string_accepted
           (header_of [("VersionMajor", PInt 1); ("VersionMinor", PInt 12)]) 1 12);
    reflexivity.
Defined.

(** *** The overwritable flag *)

Lemma registry_flag_check : forallb flag_check identifiers = true.
Proof. vm_compute. reflexivity. Qed.

Lemma registry_specs_protect (fmt : string) (overwritable : bool) :
  In fmt identifiers ->
  (let* F := Format.init fmt overwritable in Ok (Format.specs F))
  = (let* T := Format.init fmt true in
     Ok (List.map (protect overwritable) (Format.specs T))).
Proof.
  unfold identifiers. cbn [In]. intros Hin.
  repeat (destruct Hin as [<- | Hin];
          [destruct overwritable; vm_compute; reflexivity|]).
  destruct Hin.
Qed.

(** X15. The flag of the schema constructor reaches five fields of the
    header schemas and nothing else: the schema built with a flag is the
    schema built with [True] in which those five fields carry the flag as
    their overwritable mark.  Record length, format string, type and packer
    do not depend on the flag, with [True] every field is overwritable, each
    header schema has the five fields, and the point schemas and the VLR
    schema have none of them. *)
Theorem overwritable_flag (fmt : string) (overwritable : bool) :
  match Format.init fmt overwritable, Format.init fmt true with
  | Ok F, Ok T =>
      Format.specs F = List.map (protect overwritable) (Format.specs T)
      /\ Format.rec_len F = Format.rec_len T
      /\ Format.pt_fmt_long F = Format.pt_fmt_long T
      /\ Format.format_type F = Format.format_type T
      /\ Format.packer F = Format.packer T
      /\ Forall (fun sp => Spec.overwritable sp = true) (Format.specs T)
      /\ Forall (fun name => is_Some (Format.lookup F !! name) <-> is_header fmt = true)
                protected_names
  | Raise e, Raise e' => e = e'
  | _, _ => False
  end.
Proof.
  destruct (Format.str_in fmt identifiers) eqn:Hin.
  - apply str_in_cases in Hin.
    pose proof (registry_specs_protect fmt overwritable Hin) as Hspecs.
    pose proof registry_flag_check as Hall. rewrite forallb_forall in Hall.
    specialize (Hall fmt Hin). unfold flag_check in Hall.
    destruct (Format.init fmt false) as [F0|] eqn:HF0; [|discriminate].
    destruct (Format.init fmt true) as [T|] eqn:HT; [|discriminate].
    apply andb_prop in Hall as [Hall Hnames]. apply andb_prop in Hall as [Hall Hover].
    apply andb_prop in Hall as [Hall Hpacker]. apply andb_prop in Hall as [Hall Htype].
    apply andb_prop in Hall as [Hlen Hlong].
    apply Z.eqb_eq in Hlen. apply String.eqb_eq in Hlong.
    apply bool_decide_eq_true in Htype. apply bool_decide_eq_true in Hpacker.
    rewrite forallb_forall in Hover. rewrite forallb_forall in Hnames.
    assert (HT' : Forall (fun sp => Spec.overwritable sp = true) (Format.specs T)).
    { apply List.Forall_forall. exact Hover. }
    assert (Hn : forall F, Format.init fmt overwritable = Ok F ->
                 Forall (fun name => is_Some (Format.lookup F !! name)
                                     <-> is_header fmt = true) protected_names).
    { intros F HF. apply List.Forall_forall. intros name Hname.
      specialize (Hnames name Hname). apply andb_prop in Hnames as [H0 H1].
      apply Bool.eqb_prop in H0. apply Bool.eqb_prop in H1.
      rewrite <- H0. destruct overwritable.
      - assert (F = T) by congruence. subst F.
        rewrite H0, <- H1. symmetry. apply bool_decide_eq_true.
      - assert (F = F0) by congruence. subst F. symmetry. apply bool_decide_eq_true. }
    destruct overwritable.
    + rewrite HT in Hspecs |- *. cbn [bind] in Hspecs. injection Hspecs as Hspecs.
      repeat (split; [first [assumption | reflexivity]|]). exact (Hn T HT).
    + rewrite HF0 in Hspecs |- *. cbn [bind] in Hspecs. injection Hspecs as Hspecs.
      repeat (split; [first [assumption | reflexivity]|]). exact (Hn F0 HF0).
  - unfold Format.init. fold identifiers. rewrite Hin. reflexivity.
Qed.

Lemma overwritable_flag_witness :
  match Format.init "h1.2" false, Format.init "h1.2" true with
  | Ok F, Ok T =>
      Format.specs F = List.map (protect false) (Format.specs T)
      /\ Format.rec_len F = Format.rec_len T
      /\ Format.pt_fmt_long F = Format.pt_fmt_long T
      /\ Format.format_type F = Format.format_type T
      /\ Format.packer F = Format.packer T
      /\ Forall (fun sp => Spec.overwritable sp = true) (Format.specs T)
      /\ Forall (fun name => is_Some (Format.lookup F !! name) <-> is_header "h1.2" = true)
                protected_names
  | Raise e, Raise e' => e = e'
  | _, _ => False
  end.
Proof. exact (overwritable_flag "h1.2" false). Defined.

(** *** Point formats that extend one another *)

Lemma unpack_items_prefix (cs1 cs2 : list Struct.code) (data : list byte) :
  Struct.unpack_items cs1 (take (Z.to_nat (Struct.calcsize cs1)) data)
  = take (List.length cs1) (Struct.unpack_items (cs1 ++ cs2) data).
Proof.
  revert data. induction cs1 as [|c cs1 IH]; intros data; [reflexivity|].
  pose proof (calcsize_nonneg cs1) as Hnn.
  cbn [Struct.calcsize fold_right]. fold (Struct.calcsize cs1).
  replace (Z.to_nat (Z.of_nat (Struct.width c) + Struct.calcsize cs1))
    with (Struct.width c + Z.to_nat (Struct.calcsize cs1))%nat by lia.
  cbn [app Struct.unpack_items List.length take].
  rewrite take_take, Nat.min_l by lia.
  rewrite skipn_firstn_comm.
  replace (Struct.width c + Z.to_nat (Struct.calcsize cs1) - Struct.width c)%nat
    with (Z.to_nat (Struct.calcsize cs1)) by lia.
  now rewrite IH.
Qed.

Lemma registry_extensions :
  forallb (fun pair => extension_check false pair && extension_check true pair)
          extensions = true.
Proof. vm_compute. reflexivity. Qed.

Lemma registry_extension_specs (small big : string) (overwritable : bool) :
  In (small, big) extensions ->
  (let* A := Format.init small overwritable in
   let* B := Format.init big overwritable in
   Ok (take (List.length (Format.specs A)) (Format.specs B)))
  = (let* A := Format.init small overwritable in Ok (Format.specs A)).
Proof.
  unfold extensions. cbn [In]. intros Hin.
  repeat (destruct Hin as [[= <- <-] | Hin];
          [destruct overwritable; vm_compute; reflexivity|]).
  destruct Hin.
Qed.

(** X16. Point format 0 is the common start of the six point formats, and
    format 1 that of formats 3, 4 and 5, format 3 that of format 5: the
    fields of the smaller schema are the first fields of the larger one, with
    the same offsets and positions.  So the start of a record of the larger
    format, cut to the record length of the smaller one, decodes under the
    smaller schema to the first values of the whole record. *)
Theorem point_schema_extension (small big : string) (overwritable : bool)
    (data : list byte) :
  In (small, big) extensions ->
  on_schema big overwritable
    (fun B => Ok (Z.of_nat (List.length data) =? Format.rec_len B)) = Ok true ->
  match Format.init small overwritable, Format.init big overwritable with
  | Ok A, Ok B =>
      Format.specs A = take (List.length (Format.specs A)) (Format.specs B)
      /\ Format.rec_len A <= Format.rec_len B
      /\ match decode A (take (Z.to_nat (Format.rec_len A)) data), decode B data with
         | Ok first, Ok all => first = take (List.length (Format.specs A)) all
         | _, _ => False
         end
  | _, _ => False
  end.
Proof.
  intros Hin Hlen. apply on_schema_Ok in Hlen as (B & HB & Hlen).
  injection Hlen as Hlen. apply Z.eqb_eq in Hlen.
  pose proof (registry_extension_specs small big overwritable Hin) as Hspecs.
  pose proof registry_extensions as Hall. rewrite forallb_forall in Hall.
  specialize (Hall _ Hin). apply andb_prop in Hall as [Hf Ht].
  assert (Hchk : extension_check overwritable (small, big) = true)
    by (destruct overwritable; assumption).
  clear Hf Ht. unfold extension_check in Hchk. cbn [fst snd] in Hchk.
  rewrite HB in Hchk, Hspecs |- *.
  destruct (Format.init small overwritable) as [A|] eqn:HA; [|discriminate].
  cbn [bind] in Hspecs. injection Hspecs as Hspecs.
  apply andb_prop in Hchk as [Hchk Hcodes]. apply andb_prop in Hchk as [Hchk Hle].
  apply andb_prop in Hchk as [HinS HinB].
  apply str_in_cases in HinS. apply str_in_cases in HinB. apply Z.leb_le in Hle.
  destruct (point_schema_packer small overwritable A HinS HA)
    as (s & Hps & Hss & Hcs & HcodesS & _).
  destruct (point_schema_packer big overwritable B HinB HB)
    as (b & Hpb & Hsb & Hcb & _ & _).
  rewrite Hps, Hpb in Hcodes. apply bool_decide_eq_true in Hcodes.
  split; [now rewrite Hspecs|]. split; [exact Hle|].
  unfold decode, Point.init. cbn [Point.point_format]. rewrite Hps, Hpb. cbn [bind].
  unfold Struct.unpack. rewrite length_take.
  pose proof (calcsize_nonneg (Struct.codes s)) as Hnn.
  replace (Z.of_nat (Z.to_nat (Format.rec_len A) `min` List.length data)
           =? Struct.size s) with true by (symmetry; apply Z.eqb_eq; lia).
  replace (Z.of_nat (List.length data) =? Struct.size b) with true
    by (symmetry; apply Z.eqb_eq; lia).
  cbn [bind Point.unpacked].
  rewrite <- Hss, Hcs.
  rewrite <- (take_drop (List.length (Format.specs A)) (Struct.codes b)).
  rewrite <- Hcodes.
  rewrite (Forall2_length _ _ _ HcodesS).
  apply unpack_items_prefix.
Qed.

Lemma point_schema_extension_witness :
  match Format.init "0" false, Format.init "2" false with
  | Ok A, Ok B =>
      Format.specs A = take (List.length (Format.specs A)) (Format.specs B)
      /\ Format.rec_len A <= Format.rec_len B
      /\ match decode A (take (Z.to_nat (Format.rec_len A)) (point0_block ++ repeat xff 6)),
               decode B (point0_block ++ repeat xff 6) with
         | Ok first, Ok all => first = take (List.length (Format.specs A)) all
         | _, _ => False
         end
  | _, _ => False
  end.
Proof.
  apply (point_schema_extension "0" "2" false (point0_block ++ repeat xff 6));
    [simpl; tauto | vm_compute; reflexivity].
Defined.

(** *** Default values *)

Lemma length_append (a b : string) :
  String.length (a +:+ b) = (String.length a + String.length b)%nat.
Proof.
  induction a as [|c a IH]; [reflexivity|].
  change (String c a +:+ b) with (String c (a +:+ b)).
  cbn [String.length]. now rewrite IH.
Qed.

Lemma str_mul_length (c : string) (n : Z) :
  String.length (str_mul c n) = (String.length c * Z.to_nat n)%nat.
Proof.
  unfold str_mul. induction (Z.to_nat n) as [|k IH]; [simpl; lia|].
  cbn [repeat fold_right]. rewrite length_append, IH. lia.
Qed.

Lemma forallb_repeat {A : Type} (f : A -> bool) (x : A) (n : nat) :
  f x = true -> forallb f (repeat x n) = true.
Proof. intros Hx. induction n as [|n IH]; [reflexivity|]. simpl. now rewrite Hx, IH. Qed.

Ltac eval_tables :=
  repeat match goal with
         | |- context [dict_get ?d ?k] =>
             let v := eval vm_compute in (dict_get d k) in
             change (dict_get d k) with v
         end.

(** X17. The default value that a field spec records has the shape of the
    field: a string of [num] characters for a character field, one number
    for a numeric field of one element and a list of [num] numbers for a
    longer one, each a value of the field's type.  The exception is the
    unsigned-byte field, whose default is a string of [num] characters and
    so no value of its type.  The two element types outside the format table
    raise [KeyError]. *)
Theorem default_matches_field (name : string) (offs : Z) (c : ctype) (num : Z)
    (pack overwritable : bool) (idx : Z) :
  1 <= num ->
  match Spec.init name offs c num pack true overwritable idx with
  | Ok sp =>
      value_matches sp (Spec.default sp) = negb (is_ubyte c)
      /\ match Spec.default sp with
         | PStr str =>
             Z.of_nat (String.length str) = num /\ (c = c_char \/ c = c_ubyte)
         | PList l => Z.of_nat (List.length l) = num /\ 1 < num
         | _ => num = 1
         end
  | Raise e => e = KeyError /\ (c = c_short \/ c = c_byte)
  end.
Proof.
  intros Hnum. unfold Spec.init.
  destruct c; cbn [LEfmt bind]; eval_tables; cbn [bind is_str];
    try (split; [reflexivity | tauto]);
    rewrite ?orb_true_r; unfold value_matches;
    (match goal with
     | |- context [spec_code ?sp] =>
         let v := eval vm_compute in (spec_code sp) in change (spec_code sp) with v
     end);
    cbn [Spec.default Spec.num py_mul is_ubyte negb].
  all: try (destruct (num =? 1) eqn:E; cbn [orb py_mul];
            [ apply Z.eqb_eq in E; subst num; split; reflexivity
            | split;
              [ unfold list_mul; rewrite repeat_length, forallb_repeat by reflexivity;
                apply andb_true_intro; split; [apply Z.eqb_eq; lia | reflexivity]
              | unfold list_mul; rewrite repeat_length; apply Z.eqb_neq in E; lia ] ]).
  - split; [destruct (num =? 1); reflexivity|].
    rewrite str_mul_length. cbn [String.length]. split; [lia | tauto].
  - split; [apply Z.eqb_eq|]; rewrite str_mul_length; cbn [String.length];
      [lia | split; [lia | tauto]].
Qed.

Lemma default_matches_field_witness :
  match Spec.init "proj_id_4" 24 c_ubyte 8 false true true 6 with
  | Ok sp =>
      value_matches sp (Spec.default sp) = negb (is_ubyte c_ubyte)
      /\ match Spec.default sp with
         | PStr str =>
             Z.of_nat (String.length str) = 8 /\ (c_ubyte = c_char \/ c_ubyte = c_ubyte)
         | PList l => Z.of_nat (List.length l) = 8 /\ 1 < 8
         | _ => 8 = 1
         end
  | Raise e => e = KeyError /\ (c_ubyte = c_short \/ c_ubyte = c_byte)
  end.
Proof. apply (default_matches_field "proj_id_4" 24 c_ubyte 8 false true 6). lia. Defined.

Lemma registry_defaults : schemas_pass defaults_outcome_ok identifiers = true.
Proof. vm_compute. reflexivity. Qed.

(** X18. A point built from the default values of the fields of its schema
    is packed without error only when the schema has no unsigned-byte field,
    which among the eleven schemas holds of the VLR schema alone; on the six
    point schemas and the four header schemas packing raises [struct.error],
    because the default of an unsigned-byte field is a string. *)
Theorem defaults_not_packable (fmt : string) (overwritable : bool) :
  match Format.init fmt overwritable with
  | Ok F =>
      match encode F (List.map Spec.default (Format.specs F)) with
      | Ok _ =>
          fmt = "VLR"%string
          /\ forall sp, sp ∈ Format.specs F -> Spec.Format sp <> c_ubyte
      | Raise e =>
          e = StructError
          /\ fmt <> "VLR"%string
          /\ exists sp str,
               sp ∈ Format.specs F /\ Spec.Format sp = c_ubyte
               /\ Spec.default sp = PStr str
      end
  | Raise _ => True
  end.
Proof.
  destruct (Format.init fmt overwritable) as [F|] eqn:HF; [|exact I].
  pose proof (init_identifier _ _ _ HF) as Hin.
  pose proof (schemas_pass_at _ _ fmt overwritable F registry_defaults Hin HF) as H.
  unfold defaults_outcome_ok in H. rewrite (init_keeps_identifier _ _ _ HF) in H.
  destruct (encode F (List.map Spec.default (Format.specs F))) as [data|e].
  - apply andb_prop in H as [Hvlr H]. apply String.eqb_eq in Hvlr.
    split; [exact Hvlr|].
    rewrite forallb_forall in H. intros sp Hsp Hc.
    apply list_elem_of_In in Hsp. specialize (H sp Hsp). rewrite Hc in H. discriminate H.
  - destruct e; try discriminate H. apply andb_prop in H as [Hvlr H].
    apply negb_true_iff, String.eqb_neq in Hvlr.
    split; [reflexivity|]. split; [exact Hvlr|].
    apply existsb_exists in H as (sp & Hsp & H). apply andb_prop in H as [Hc Hd].
    destruct (Spec.default sp) as [| | |str| | | |] eqn:Hdef; try discriminate Hd.
    exists sp, str. split; [now apply list_elem_of_In|]. split; [|exact Hdef].
    destruct (Spec.Format sp); try discriminate Hc. reflexivity.
Qed.

Lemma defaults_not_packable_witness :
  match Format.init "1" false with
  | Ok F =>
      match encode F (List.map Spec.default (Format.specs F)) with
      | Ok _ =>
          "1"%string = "VLR"%string
          /\ forall sp, sp ∈ Format.specs F -> Spec.Format sp <> c_ubyte
      | Raise e =>
          e = StructError
          /\ "1"%string <> "VLR"%string
          /\ exists sp str,
               sp ∈ Format.specs F /\ Spec.Format sp = c_ubyte
               /\ Spec.default sp = PStr str
      end
  | Raise _ => True
  end.
Proof. exact (defaults_not_packable "1" false). Defined.

(** *** The creation date from the day count *)

Lemma valid_day_of_year (y m d : Z) :
  1 <= m <= 12 -> 1 <= d <= Datetime.days_in_month y m ->
  0 <= Datetime.days_before_month y m + d - 1 < 365 + (if Datetime.is_leap y then 1 else 0).
Proof.
  intros Hm Hd.
  assert (Hc : m = 1 \/ m = 2 \/ m = 3 \/ m = 4 \/ m = 5 \/ m = 6 \/ m = 7 \/ m = 8
               \/ m = 9 \/ m = 10 \/ m = 11 \/ m = 12) by lia.
  unfold Datetime.days_before_month, Datetime.days_in_month in *.
  repeat (destruct Hc as [-> | Hc]); try subst m;
    destruct (Datetime.is_leap y); simpl in *; lia.
Qed.

Lemma month_day_checked :
  forallb (fun leap => forallb (fun m => forallb (month_day_check leap m) (seqZ 1 31))
                               (seqZ 1 12)) [true; false] = true.
Proof. vm_compute. reflexivity. Qed.

Lemma month_day_of_date (y m d : Z) :
  1 <= m <= 12 -> 1 <= d <= Datetime.days_in_month y m ->
  let r := Datetime.days_before_month y m + d - 1 in
  Datetime.month_day (Datetime.is_leap y) r = (m, d)
  /\ (r < 365 \/ (m = 12 /\ d = 31)).
Proof.
  intros Hm Hd.
  assert (Hd31 : d <= 31).
  { unfold Datetime.days_in_month in Hd.
    assert (Hc : m = 1 \/ m = 2 \/ m = 3 \/ m = 4 \/ m = 5 \/ m = 6 \/ m = 7 \/ m = 8
               \/ m = 9 \/ m = 10 \/ m = 11 \/ m = 12) by lia.
    repeat (destruct Hc as [-> | Hc]); try subst m;
      destruct (Datetime.is_leap y); simpl in Hd; lia. }
  pose proof month_day_checked as Hall.
  rewrite forallb_forall in Hall.
  specialize (Hall (Datetime.is_leap y)).
  rewrite forallb_forall in Hall.
  assert (Hleap : In (Datetime.is_leap y) [true; false])
    by (destruct (Datetime.is_leap y); simpl; tauto).
  specialize (Hall Hleap m). rewrite forallb_forall in Hall.
  assert (Hinm : In m (seqZ 1 12)) by (apply list_elem_of_In, elem_of_seqZ; lia).
  assert (Hind : In d (seqZ 1 31)) by (apply list_elem_of_In, elem_of_seqZ; lia).
  specialize (Hall Hinm d Hind). unfold month_day_check in Hall.
  unfold Datetime.days_in_month in Hd. unfold Datetime.days_before_month. cbv zeta.
  replace (d <=? _) with true in Hall by (symmetry; apply Z.leb_le; lia).
  cbn [negb orb] in Hall. cbv zeta in Hall.
  destruct (Datetime.month_day _ _) as [m' d'].
  apply andb_prop in Hall as [Hall Hr]. apply andb_prop in Hall as [Em Ed].
  apply Z.eqb_eq in Em. apply Z.eqb_eq in Ed. subst.
  split; [reflexivity|]. lia.
Qed.

Lemma ord2ymd_ymd2ord (y m d : Z) :
  1 <= y -> 1 <= m <= 12 -> 1 <= d <= Datetime.days_in_month y m ->
  Datetime.ord2ymd (Datetime.ymd2ord y m d) = (y, m, d).
Proof.
  intros Hy Hm Hd.
  pose proof (valid_day_of_year y m d Hm Hd) as Hr.
  destruct (month_day_of_date y m d Hm Hd) as [Hmd Hlast].
  set (r := Datetime.days_before_month y m + d - 1) in *.
  set (y0 := y - 1).
  set (a := y0 / 400). set (q := y0 mod 400).
  set (b := q / 100). set (q1 := q mod 100).
  set (c := q1 / 4). set (e := q1 mod 4).
  assert (Ey : y0 = 400 * a + 100 * b + 4 * c + e
               /\ 0 <= b < 4 /\ 0 <= c < 25 /\ 0 <= e < 4 /\ 0 <= a).
  { subst a q b q1 c e y0. Z.div_mod_to_equations. lia. }
  destruct Ey as (Ey & Hb & Hc & He & Ha).
  assert (Edby : Datetime.days_before_year y = 146097 * a + 36524 * b + 1461 * c + 365 * e).
  { unfold Datetime.days_before_year. fold y0.
    assert (y0 / 4 = 100 * a + 25 * b + c) by (symmetry; apply Z.div_unique with e; lia).
    assert (y0 / 100 = 4 * a + b)
      by (symmetry; apply Z.div_unique with (4 * c + e); lia).
    assert (y0 / 400 = a) by reflexivity.
    lia. }
  assert (Eleap : Datetime.is_leap y = (e =? 3) && (negb (c =? 24) || (b =? 3))).
  { unfold Datetime.is_leap.
    assert (Hy' : y = 400 * a + 100 * b + 4 * c + e + 1) by (unfold y0 in Ey; lia).
    assert (E4 : (y mod 4 =? 0) = (e =? 3)).
    { destruct (e =? 3) eqn:E; [apply Z.eqb_eq | apply Z.eqb_neq];
        Z.div_mod_to_equations; lia. }
    assert (E100 : (y mod 4 =? 0) = true -> (y mod 100 =? 0) = (c =? 24)).
    { rewrite E4. intros E3%Z.eqb_eq.
      destruct (c =? 24) eqn:E; [apply Z.eqb_eq | apply Z.eqb_neq];
        Z.div_mod_to_equations; lia. }
    assert (E400 : (y mod 4 =? 0) = true -> (y mod 100 =? 0) = true ->
                   (y mod 400 =? 0) = (b =? 3)).
    { rewrite E4. intros E3%Z.eqb_eq E24. rewrite E100 in E24 by (rewrite E4; lia).
      apply Z.eqb_eq in E24.
      destruct (b =? 3) eqn:E; [apply Z.eqb_eq | apply Z.eqb_neq];
        Z.div_mod_to_equations; lia. }
    destruct (y mod 4 =? 0) eqn:H4; rewrite <- E4; [|reflexivity].
    rewrite (E100 eq_refl). cbn [andb].
    destruct (c =? 24) eqn:H24; [|reflexivity]. cbn [negb orb].
    apply E400; [reflexivity|]. now rewrite (E100 eq_refl). }
  unfold Datetime.ord2ymd, Datetime.ymd2ord. fold r.
  replace (Datetime.days_before_year y + Datetime.days_before_month y m + d - 1)
    with (146097 * a + (36524 * b + 1461 * c + 365 * e + r)) by (unfold r; lia).
  rewrite Eleap in Hr, Hmd.
  assert (Hrle : r <= 365) by (destruct ((e =? 3) && _); lia).
  assert (Hr365 : r = 365 -> e = 3 /\ (c <> 24 \/ b = 3)).
  { intros E. destruct (e =? 3) eqn:E3; cbn [andb] in Hr; [|lia].
    destruct (c =? 24) eqn:E24; cbn [negb orb] in Hr; [|lia].
    destruct (b =? 3) eqn:Eb; lia. }
  set (r400 := 36524 * b + 1461 * c + 365 * e + r).
  assert (H400 : (146097 * a + r400) / 146097 = a /\ (146097 * a + r400) mod 146097 = r400).
  { assert (0 <= r400 < 146097) by (unfold r400; lia).
    split; [symmetry; apply Z.div_unique with r400; lia
           | symmetry; apply Z.mod_unique with a; lia]. }
  destruct H400 as [-> ->].
  destruct (Z.eq_dec r 365) as [E365 | N365].
  - destruct (Hr365 E365) as [-> Hcb].
    assert (Hm12 : m = 12 /\ d = 31) by lia. destruct Hm12 as [-> ->].
    destruct (Z.eq_dec c 24) as [-> | Nc].
    + assert (b = 3) by lia. subst b.
      assert (E1 : r400 / 36524 = 4) by (unfold r400; symmetry; apply Z.div_unique with 0; lia).
      rewrite E1. cbv zeta.
      replace ((_ =? 4) || (4 =? 4)) with true by (rewrite orb_true_r; reflexivity).
      f_equal. f_equal.
      assert (E2 : r400 mod 36524 = 0) by (unfold r400; symmetry; apply Z.mod_unique with 4; lia).
      rewrite E2. change (0 / 1461) with 0. change (0 mod 1461) with 0. change (0 / 365) with 0.
      unfold y0 in Ey. lia.
    + assert (E1 : r400 / 36524 = b /\ r400 mod 36524 = 1461 * c + 1460).
      { unfold r400. split; [symmetry; apply Z.div_unique with (1461 * c + 1460); lia
                            | symmetry; apply Z.mod_unique with b; lia]. }
      destruct E1 as [-> ->].
      assert (E2 : (1461 * c + 1460) / 1461 = c /\ (1461 * c + 1460) mod 1461 = 1460).
      { split; [symmetry; apply Z.div_unique with 1460; lia
               | symmetry; apply Z.mod_unique with c; lia]. }
      destruct E2 as [-> ->]. change (1460 / 365) with 4. cbv zeta.
      cbn [Z.eqb orb]. f_equal. f_equal. unfold y0 in Ey. lia.
  - assert (Hr' : 0 <= r < 365) by lia.
    assert (E1 : r400 / 36524 = b /\ r400 mod 36524 = 1461 * c + 365 * e + r).
    { unfold r400. split; [symmetry; apply Z.div_unique with (1461 * c + 365 * e + r); lia
                          | symmetry; apply Z.mod_unique with b; lia]. }
    destruct E1 as [-> ->].
    assert (E2 : (1461 * c + 365 * e + r) / 1461 = c
                 /\ (1461 * c + 365 * e + r) mod 1461 = 365 * e + r).
    { split; [symmetry; apply Z.div_unique with (365 * e + r); lia
             | symmetry; apply Z.mod_unique with c; lia]. }
    destruct E2 as [-> ->].
    assert (E3 : (365 * e + r) / 365 = e /\ (365 * e + r) mod 365 = r).
    { split; [symmetry; apply Z.div_unique with r; lia
             | symmetry; apply Z.mod_unique with e; lia]. }
    destruct E3 as [-> ->]. cbv zeta.
    replace ((e =? 4) || (b =? 4)) with false
      by (symmetry; apply orb_false_intro; apply Z.eqb_neq; lia).
    rewrite Hmd. f_equal. f_equal. unfold y0 in Ey. lia.
Qed.

Lemma ymd2ord_bounds (y m d : Z) :
  1 <= y <= 9999 -> 1 <= m <= 12 -> 1 <= d <= Datetime.days_in_month y m ->
  Datetime.ymd2ord y 1 1 <= Datetime.ymd2ord y m d <= Datetime.MAXORDINAL
  /\ Datetime.ymd2ord y m d - Datetime.ymd2ord y 1 1 <= 365.
Proof.
  intros Hy Hm Hd. pose proof (valid_day_of_year y m d Hm Hd) as Hr.
  unfold Datetime.ymd2ord, Datetime.MAXORDINAL.
  change (Datetime.days_before_month y 1) with 0.
  assert (Hleap : Datetime.is_leap y = true -> y <= 9996).
  { unfold Datetime.is_leap. intros [H4 _]%andb_prop. apply Z.eqb_eq in H4.
    Z.div_mod_to_equations. lia. }
  unfold Datetime.days_before_year.
  destruct (Datetime.is_leap y); [specialize (Hleap eq_refl)|];
    Z.div_mod_to_equations; lia.
Qed.

(** X19. Every day of the calendar is the creation date of a header: when
    the header holds the year of a valid date and the number of its day
    within that year, counted from zero, or from one in a year for which
    [leap_year] holds, the read accessor returns that day at midnight. *)
Theorem get_date_of_day_count (h : Header.t) (v : datetime) :
  valid_datetime v = true ->
  Header.getattr h "CreatedYear" = Ok (PInt (year v)) ->
  Header.getattr h "CreatedDay"
    = Ok (PInt (day_of_year v + (if leap_year (year v) then 1 else 0))) ->
  Header.get_date h = Ok (Some (midnight v)).
Proof.
  intros Hv Hyear Hday.
  apply andb_prop in Hv as [Hdate _].
  apply Datetime_init_valid in Hdate as (Hy & Hm & Hd).
  pose proof (ymd2ord_bounds _ _ _ Hy Hm Hd) as [Hord Hspan].
  pose proof (ymd2ord_jan1_bounds _ Hy) as Hjan.
  unfold day_of_year, Datetime.toordinal in Hday.
  unfold Header.get_date, Header.getint. rewrite Hday, Hyear. cbn [bind Header.as_int].
  replace (year v =? 0) with false by lia. cbn [andb].
  assert (Hk : forall k, k = Datetime.ymd2ord (year v) (month v) (day v)
                             - Datetime.ymd2ord (year v) 1 1 ->
               (let* jan1 := Datetime.init (year v) 1 1 in
                let* delta := Datetime.timedelta_days k in
                let* date := Datetime.add jan1 delta in Ok (Some date))
               = Ok (Some (midnight v))).
  { intros k ->. rewrite (Datetime_init_jan1_valid _ Hy).
    cbn [bind]. rewrite (jan1_add _ _ Hy). unfold jan1_plus.
    replace (Datetime.ymd2ord (year v) 1 1
             + (Datetime.ymd2ord (year v) (month v) (day v) - Datetime.ymd2ord (year v) 1 1))
      with (Datetime.ymd2ord (year v) (month v) (day v)) by lia.
    replace ((0 <? Datetime.ymd2ord (year v) (month v) (day v))
             && (Datetime.ymd2ord (year v) (month v) (day v) <=? Datetime.MAXORDINAL))
      with true by lia.
    unfold date_of_ordinal. rewrite ord2ymd_ymd2ord by lia. reflexivity. }
  destruct (leap_year (year v)); cbn [negb]; apply Hk; lia.
Qed.

Lemma get_date_of_day_count_witness :
  Header.get_date (header_of [("CreatedYear", PInt 2008); ("CreatedDay", PInt 78)])
  = Ok (Some (midnight {| year := 2008; month := 3; day := 19;
                          hour := 10; minute := 30; second := 0; microsecond := 0 |})).
Proof.
  apply (get_date_of_day_count
           (header_of [("CreatedYear", PInt 2008); ("CreatedDay", PInt 78)])
           {| year := 2008; month := 3; day := 19;
              hour := 10; minute := 30; second := 0; microsecond := 0 |});
    reflexivity.
Defined.
